(** * SOOP live-chat WebSocket client: a shallow embedding of
      [soop_chat_client.py] and the properties of its frame codec, its
      dispatcher and its session handling. *)

From Stdlib Require Import ZArith NArith Lia.
From Stdlib Require Import String Ascii.
From stdpp Require Import base option list gmap.

Local Open Scope N_scope.

(** ** Python text

    A Python [str] is a sequence of Unicode code points; [len] counts code
    points while [encode('utf-8')] produces between one and four bytes for
    each of them.  Code points are kept as binary naturals. *)

Definition char : Type := N.
Definition str : Type := list char.
Definition bytes : Type := list N.

(** ASCII literals of the source text, one code point per character. *)
Definition lit (s : string) : str :=
  map (fun a => N_of_ascii a) (list_ascii_of_string s).

(** [len(s)] *)
Definition len (s : str) : N := N.of_nat (length s).

(** [s * n] for a one-character literal [s] *)
Definition str_mul (s : str) (n : nat) : str := concat (replicate n s).

(** [s.startswith(p)] *)
Fixpoint startswith (s p : str) {struct p} : bool :=
  match p, s with
  | [], _ => true
  | _ :: _, [] => false
  | c :: p', d :: s' => if N.eqb c d then startswith s' p' else false
  end.

(** [s[i:j]] for [0 <= i <= j]: out-of-range bounds are clipped, as Python
    slicing does. *)
Definition slice (s : str) (i j : nat) : str := take (j - i) (drop i s).

(** [s.split(sep)] for a one-character separator: never empty, one more
    part than there are separators. *)
Fixpoint split (sep : char) (s : str) : list str :=
  match s with
  | [] => [[]]
  | c :: r =>
      if N.eqb c sep then [] :: split sep r
      else match split sep r with
           | p :: ps => (c :: p) :: ps
           | [] => [[c]]
           end
  end.

(** *** Decimal text of integers: [str(n)] and [int(s)] *)

Definition digit (d : N) : char := 48 + d.

(** Most significant digit first; the positive argument bounds the number
    of divisions by ten (it is halved where the number loses a digit). *)
Fixpoint digits_from (bound : positive) (n : N) (acc : str) : str :=
  let acc' := digit (n mod 10) :: acc in
  if N.eqb (n / 10) 0 then acc'
  else match bound with
       | xH => acc'
       | xO b | xI b => digits_from b (n / 10) acc'
       end.

Definition str_of_N (n : N) : str :=
  match n with
  | N0 => [digit 0]
  | Npos p => digits_from p n []
  end.

Definition str_of_Z (z : Z) : str :=
  match z with
  | Zneg p => 45 :: str_of_N (Npos p)
  | _ => str_of_N (Z.to_N z)
  end.

(** Value of a run of decimal digits; [None] on any other character or on
    the empty text.  Leading zeros are accepted, as [int] does. *)
Definition digit_val (c : char) : option N :=
  if (48 <=? c) && (c <=? 57) then Some (c - 48) else None.

Fixpoint int_digits (acc : N) (s : str) : option N :=
  match s with
  | [] => Some acc
  | c :: r => match digit_val c with
              | Some d => int_digits (acc * 10 + d) r
              | None => None
              end
  end.

Definition N_of_str (s : str) : option N :=
  match s with
  | [] => None
  | _ => int_digits 0 s
  end.

Definition Z_of_str (s : str) : option Z :=
  match s with
  | 45 :: r => (fun n => (- Z.of_N n)%Z) <$> N_of_str r
  | _ => Z.of_N <$> N_of_str s
  end.

(** [s.zfill(width)]: zeros go after a leading sign; a text that already
    has the width is returned as it is, never truncated. *)
Definition zfill (width : nat) (s : str) : str :=
  let pad := replicate (width - length s) 48 in
  match s with
  | c :: r => if N.eqb c 43 || N.eqb c 45 then c :: pad ++ r else pad ++ s
  | [] => pad
  end.

(** *** UTF-8

    [text.encode('utf-8')] raises [UnicodeEncodeError] on a surrogate code
    point, which a Python [str] may hold; that is the [None] here. *)
Definition encode_char (c : char) : option bytes :=
  if c <? 128 then Some [c]
  else if c <? 2048 then Some [192 + c / 64; 128 + c mod 64]
  else if (55296 <=? c) && (c <=? 57343) then None
  else if c <? 65536 then
    Some [224 + c / 4096; 128 + (c / 64) mod 64; 128 + c mod 64]
  else if c <? 1114112 then
    Some [240 + c / 262144; 128 + (c / 4096) mod 64;
          128 + (c / 64) mod 64; 128 + c mod 64]
  else None.

Fixpoint encode_utf8 (s : str) : option bytes :=
  match s with
  | [] => Some []
  | c :: r =>
      match encode_char c, encode_utf8 r with
      | Some b, Some bs => Some (b ++ bs)
      | _, _ => None
      end
  end.

(** [data.decode('utf-8')], strict: continuation bytes, shortest form, no
    surrogates, nothing above U+10FFFF; [None] is [UnicodeDecodeError]. *)
Definition is_cont (b : N) : bool := (128 <=? b) && (b <=? 191).

Fixpoint decode_utf8 (bs : bytes) : option str :=
  match bs with
  | [] => Some []
  | b0 :: r =>
      if b0 <? 128 then cons b0 <$> decode_utf8 r
      else if (194 <=? b0) && (b0 <=? 223) then
        match r with
        | b1 :: r1 =>
            if is_cont b1
            then cons ((b0 - 192) * 64 + (b1 - 128)) <$> decode_utf8 r1
            else None
        | _ => None
        end
      else if (224 <=? b0) && (b0 <=? 239) then
        match r with
        | b1 :: b2 :: r2 =>
            let c := (b0 - 224) * 4096 + (b1 - 128) * 64 + (b2 - 128) in
            if is_cont b1 && is_cont b2 && (2048 <=? c)
               && negb ((55296 <=? c) && (c <=? 57343))
            then cons c <$> decode_utf8 r2
            else None
        | _ => None
        end
      else if (240 <=? b0) && (b0 <=? 244) then
        match r with
        | b1 :: b2 :: b3 :: r3 =>
            let c := (b0 - 240) * 262144 + (b1 - 128) * 4096
                     + (b2 - 128) * 64 + (b3 - 128) in
            if is_cont b1 && is_cont b2 && is_cont b3
               && (65536 <=? c) && (c <? 1114112)
            then cons c <$> decode_utf8 r3
            else None
        | _ => None
        end
      else None
  end.

(** *** [str.lower]

    Written out on ASCII text; on text with any other character the result
    is that of the interpreter's Unicode tables, [unicode_lower], which this
    development does not fix. *)
Definition is_ascii (s : str) : bool := forallb (fun c => c <? 128) s.

Definition lower_ascii (c : char) : char :=
  if (65 <=? c) && (c <=? 90) then c + 32 else c.

Definition lower (unicode_lower : str -> str) (s : str) : str :=
  if is_ascii s then map lower_ascii s else unicode_lower s.

(** ** Protocol constants *)

Module ChatDelimiter.
Definition ESC : char := 27.
Definition TAB : char := 9.
Definition FF : char := 12.
Definition STARTER : str := [ESC; TAB].
Definition SEPARATOR : str := [FF].
Definition ELEMENT_START : str := [17].
Definition ELEMENT_END : str := [18].
Definition SPACE : str := [6].
End ChatDelimiter.

Module ChatType.
Definition PING : str := lit "0000".
Definition CONNECT : str := lit "0001".
Definition ENTER_CHAT_ROOM : str := lit "0002".
Definition EXIT : str := lit "0004".
Definition CHAT : str := lit "0005".
Definition DISCONNECT : str := lit "0007".
Definition ENTER_INFO : str := lit "0012".
Definition TEXT_DONATION : str := lit "0018".
Definition AD_BALLOON_DONATION : str := lit "0087".
Definition SUBSCRIBE : str := lit "0093".
Definition NOTIFICATION : str := lit "0104".
Definition EMOTICON : str := lit "0109".
Definition VIDEO_DONATION : str := lit "0105".
Definition VIEWER : str := lit "0127".
End ChatType.

Module SoopChatEvent.
Definition RAW : str := lit "raw".
Definition CONNECT : str := lit "connect".
Definition DISCONNECT : str := lit "disconnect".
Definition ENTER_CHAT_ROOM : str := lit "enter_chat_room".
Definition CHAT : str := lit "chat".
Definition NOTIFICATION : str := lit "notification".
Definition TEXT_DONATION : str := lit "text_donation".
Definition VIDEO_DONATION : str := lit "video_donation".
Definition AD_BALLOON_DONATION : str := lit "ad_balloon_donation".
Definition SUBSCRIBE : str := lit "subscribe".
Definition EMOTICON : str := lit "emoticon".
Definition VIEWER : str := lit "viewer".
Definition EXIT : str := lit "exit".
Definition UNKNOWN : str := lit "unknown".
End SoopChatEvent.

(** ** Data *)

Record LiveDetail := {
  result : Z;
  chat_domain : str;
  chat_port : Z;
  chat_no : str;
  bj_id : str;
  bj_nick : str;
  title : str;
  ftk : str;
  bps : Z;
  geo_cc : str;
  geo_rc : str;
  acpt_lang : str;
  svc_lang : str;
  view_preset : list str
}.

(** What a subscriber receives: the packet text for [raw], a dict for the
    decoded kinds (keys in insertion order). *)
Inductive value :=
| VStr (s : str)
| VList (l : list str).

Inductive payload :=
| PStr (s : str)
| PDict (d : list (str * value)).

Inductive exn :=
| Exception (msg : str)
| AttributeError
| ConnectionClosed
| UnicodeEncodeError
| UnicodeDecodeError
| CancelledError
| OtherError (tag : nat).

(** A subscriber callback: called for its effect, it returns ([None]) or
    raises.  Callbacks that call back into the client are outside the model. *)
Record handler := {
  h_id : nat;
  h_run : payload -> option exn
}.

Record websocket := { ws_url : str }.

Inductive task := PingTask.

Record client := {
  streamer_id : str;
  ws : option websocket;
  live_detail : option LiveDetail;
  handlers : gmap str (list handler);
  _connected : bool;
  _entered : bool;
  _ping_task : option task
}.

(** [SoopChatClient(streamer_id)] *)
Definition __init__ (sid : str) : client :=
  {| streamer_id := sid; ws := None; live_detail := None; handlers := ∅;
     _connected := false; _entered := false; _ping_task := None |}.

(** *** What the client does to its surroundings *)

Inductive log_line :=
| LogConnectUrl (url : str)
| LogParseFailed (e : exn)
| LogEntered.

Inductive effect :=
| Emit (event : str) (data : payload)   (* [_emit] entered *)
| Call (h : nat) (data : payload)       (* a subscriber invoked *)
| Print (l : log_line)
| HttpPost (url : str) (form : list (str * str))
| WsConnect (url : str) (subprotocols : list str) (verify_tls : bool)
| WsSend (packet : str)
| WsClose
| TaskCreate
| TaskCancel.

(** The surroundings: everything done so far, whether the socket is still
    open, and the wall clock as the successive readings it will give. *)
Record world := {
  trace : list effect;
  sock_open : bool;
  clock : nat -> str;
  tick : nat
}.

Record state := { cl : client; wd : world }.

(** ** Computations: state, and an exception or a value *)

Definition M (A : Type) : Type := state -> (exn + A) * state.

Definition ret {A} (a : A) : M A := fun s => (inr a, s).
Definition raise {A} (e : exn) : M A := fun s => (inl e, s).
Definition bind {A B} (m : M A) (k : A -> M B) : M B :=
  fun s => match m s with
           | (inr a, s') => k a s'
           | (inl e, s') => (inl e, s')
           end.

Global Instance M_ret : MRet M := @ret.
Global Instance M_bind : MBind M := fun A B k m => bind m k.

(** [try: m  except Exception as e: ...] hands the exception over as a value. *)
Definition try {A} (m : M A) : M (exn + A) :=
  fun s => match m s with (r, s') => (inr r, s') end.

Definition lift {A} (r : exn + A) : M A :=
  match r with inr a => ret a | inl e => raise e end.

Definition get_self : M client := fun s => (inr (cl s), s).
Definition get_world : M world := fun s => (inr (wd s), s).
Definition set_self (f : client -> client) : M unit :=
  fun s => (inr tt, {| cl := f (cl s); wd := wd s |}).
Definition set_world (f : world -> world) : M unit :=
  fun s => (inr tt, {| cl := cl s; wd := f (wd s) |}).

Definition log (e : effect) : M unit :=
  set_world (fun w => {| trace := trace w ++ [e]; sock_open := sock_open w;
                         clock := clock w; tick := tick w |}).

Definition print (l : log_line) : M unit := log (Print l).

(** [datetime.now().isoformat()] *)
Definition now : M str :=
  fun s => let w := wd s in
    (inr (clock w (tick w)),
     {| cl := cl s;
        wd := {| trace := trace w; sock_open := sock_open w;
                 clock := clock w; tick := S (tick w) |} |}).

(** ** The client *)

Import ChatDelimiter.

(** [on(event, handler)] *)
Definition on (event : str) (h : handler) (c : client) : client :=
  let table :=
    match handlers c !! event with
    | Some _ => handlers c
    | None => <[event := []]> (handlers c)
    end in
  {| streamer_id := streamer_id c; ws := ws c; live_detail := live_detail c;
     handlers := <[event := default [] (table !! event) ++ [h]]> table;
     _connected := _connected c; _entered := _entered c;
     _ping_task := _ping_task c |}.

(** [handler(data)] *)
Definition invoke (h : handler) (data : payload) : M unit :=
  log (Call (h_id h) data);;
  match h_run h data with
  | Some e => raise e
  | None => ret tt
  end.

(** [for handler in self.handlers[event]: handler(data)] *)
Fixpoint call_each (hs : list handler) (data : payload) : M unit :=
  match hs with
  | [] => ret tt
  | h :: hs' => invoke h data;; call_each hs' data
  end.

(** [_emit(event, data)].  The [Emit] entry records that the event was
    emitted, whether or not anybody subscribed to it. *)
Definition _emit (event : str) (data : payload) : M unit :=
  log (Emit event data);;
  self ← get_self;
  match handlers self !! event with
  | Some hs => call_each hs data
  | None => ret tt
  end.

(** *** Frame codec *)

(** [_get_byte_size(text)]: [len(text.encode('utf-8'))] *)
Definition _get_byte_size (text : str) : exn + N :=
  match encode_utf8 text with
  | Some bs => inr (N.of_nat (length bs))
  | None => inl UnicodeEncodeError
  end.

(** [_get_payload_length(payload)]: [str(size).zfill(6)] *)
Definition _get_payload_length (payload : str) : exn + str :=
  match _get_byte_size payload with
  | inr size => inr (zfill 6 (str_of_N size))
  | inl e => inl e
  end.

(** [_get_packet(chat_type, payload)] *)
Definition _get_packet (chat_type payload : str) : exn + str :=
  match _get_payload_length payload with
  | inr length_field =>
      let header := STARTER ++ chat_type ++ length_field ++ lit "00" in
      inr (header ++ payload)
  | inl e => inl e
  end.

Definition connect_payload : str :=
  str_mul SEPARATOR 3 ++ lit "16" ++ SEPARATOR.

Definition _get_connect_packet : exn + str :=
  _get_packet ChatType.CONNECT connect_payload.

Definition join_payload (chat_no : str) : str :=
  (SEPARATOR ++ chat_no) ++ str_mul SEPARATOR 5.

(** [self.live_detail.chat_no] on a client without descriptor is an
    attribute access on [None]. *)
Definition _get_join_packet (self : client) : exn + str :=
  match live_detail self with
  | Some d => _get_packet ChatType.ENTER_CHAT_ROOM (join_payload (chat_no d))
  | None => inl AttributeError
  end.

Definition _get_ping_packet : exn + str :=
  _get_packet ChatType.PING SEPARATOR.

(** [_parse_message_type(packet)] *)
Definition _parse_message_type (packet : str) : exn + str :=
  if negb (startswith packet STARTER) then
    inl (Exception (lit "Invalid packet: does not start with STARTER"))
  else if 5 <=? len packet then
    inr (slice packet 2 6)
  else
    inl (Exception (lit "Invalid packet: too short")).

(** [parts[i] if len(parts) > i], else the empty text *)
Definition part (parts : list str) (i : nat) : str :=
  if decide (i < length parts)%nat then default [] (parts !! i) else [].

Definition _parse_connect (packet : str) : list (str * value) :=
  let parts := split FF packet in
  [(lit "username", VStr (part parts 1)); (lit "syn", VStr (part parts 2))].

Definition _parse_enter_chat_room (packet : str) : list (str * value) :=
  let parts := split FF packet in
  [(lit "streamer_id", VStr (part parts 2));
   (lit "syn_ack", VStr (part parts 7))].

Definition _parse_chat (packet : str) : list (str * value) :=
  let parts := split FF packet in
  [(lit "comment", VStr (part parts 1));
   (lit "user_id", VStr (part parts 2));
   (lit "username", VStr (part parts 6))].

Definition _parse_notification (packet : str) : list (str * value) :=
  let parts := split FF packet in
  [(lit "notification", VStr (part parts 4))].

Definition _parse_donation (packet : str) : list (str * value) :=
  let parts := split FF packet in
  [(lit "to", VStr (part parts 2));
   (lit "from", VStr (part parts 3));
   (lit "from_username", VStr (part parts 4));
   (lit "amount", VStr (part parts 5))].

Definition _parse_emoticon (packet : str) : list (str * value) :=
  let parts := split FF packet in
  [(lit "emoticon_id", VStr (part parts 3));
   (lit "user_id", VStr (part parts 6));
   (lit "username", VStr (part parts 7))].

(** *** Session *)

Definition set_connected (b : bool) : M unit :=
  set_self (fun c =>
    {| streamer_id := streamer_id c; ws := ws c; live_detail := live_detail c;
       handlers := handlers c; _connected := b; _entered := _entered c;
       _ping_task := _ping_task c |}).

Definition set_entered (b : bool) : M unit :=
  set_self (fun c =>
    {| streamer_id := streamer_id c; ws := ws c; live_detail := live_detail c;
       handlers := handlers c; _connected := _connected c; _entered := b;
       _ping_task := _ping_task c |}).

Definition set_ping_task (t : option task) : M unit :=
  set_self (fun c =>
    {| streamer_id := streamer_id c; ws := ws c; live_detail := live_detail c;
       handlers := handlers c; _connected := _connected c;
       _entered := _entered c; _ping_task := t |}).

Definition set_ws (w : option websocket) : M unit :=
  set_self (fun c =>
    {| streamer_id := streamer_id c; ws := w; live_detail := live_detail c;
       handlers := handlers c; _connected := _connected c;
       _entered := _entered c; _ping_task := _ping_task c |}).

Definition set_live_detail (d : option LiveDetail) : M unit :=
  set_self (fun c =>
    {| streamer_id := streamer_id c; ws := ws c; live_detail := d;
       handlers := handlers c; _connected := _connected c;
       _entered := _entered c; _ping_task := _ping_task c |}).

Definition set_sock_open (b : bool) : M unit :=
  set_world (fun w => {| trace := trace w; sock_open := b;
                         clock := clock w; tick := tick w |}).

(** [await self.ws.send(packet)]: no socket object is an attribute access
    on [None]; a socket that is no longer open raises [ConnectionClosed]. *)
Definition ws_send (packet : str) : M unit :=
  self ← get_self;
  match ws self with
  | None => raise AttributeError
  | Some _ =>
      w ← get_world;
      if sock_open w then log (WsSend packet) else raise ConnectionClosed
  end.

(** [await self.ws.close()] *)
Definition ws_close : M unit := log WsClose;; set_sock_open false.

(** [disconnect()] *)
Definition disconnect : M unit :=
  self ← get_self;
  if negb (_connected self) then ret tt
  else
    time ← now;
    _emit SoopChatEvent.DISCONNECT
      (PDict [(lit "streamer_id", VStr (streamer_id self));
              (lit "time", VStr time)]);;
    self ← get_self;
    (match _ping_task self with
     | Some _ => log TaskCancel;; set_ping_task None
     | None => ret tt
     end);;
    self ← get_self;
    (match ws self with
     | Some _ => ws_close;; set_ws None
     | None => ret tt
     end);;
    set_connected false.

(** What arrives on the socket: a text or a binary message. *)
Inductive ws_data :=
| Text (s : str)
| Binary (b : bytes).

(** [data if isinstance(data, str) else data.decode('utf-8')] *)
Definition packet_of (data : ws_data) : exn + str :=
  match data with
  | Text s => inr s
  | Binary b => match decode_utf8 b with
                | Some s => inr s
                | None => inl UnicodeDecodeError
                end
  end.

Definition timed (fields : list (str * value)) (received_time : str)
  : payload :=
  PDict (fields ++ [(lit "time", VStr received_time)]).

(** [_handle_message(data)] *)
Definition _handle_message (data : ws_data) : M unit :=
  received_time ← now;
  packet ← lift (packet_of data);
  _emit SoopChatEvent.RAW (PStr packet);;
  parsed ← try (lift (_parse_message_type packet));
  match parsed with
  | inl e => print (LogParseFailed e)
  | inr msg_type =>
      if decide (msg_type = ChatType.CONNECT) then
        set_connected true;;
        self ← get_self;
        _emit SoopChatEvent.CONNECT
          (timed (_parse_connect packet
                  ++ [(lit "streamer_id", VStr (streamer_id self))])
                 received_time);;
        self ← get_self;
        join_packet ← lift (_get_join_packet self);
        ws_send join_packet
      else if decide (msg_type = ChatType.ENTER_CHAT_ROOM) then
        _emit SoopChatEvent.ENTER_CHAT_ROOM
          (timed (_parse_enter_chat_room packet) received_time);;
        set_entered true;;
        print LogEntered
      else if decide (msg_type = ChatType.CHAT) then
        _emit SoopChatEvent.CHAT (timed (_parse_chat packet) received_time)
      else if decide (msg_type = ChatType.NOTIFICATION) then
        _emit SoopChatEvent.NOTIFICATION
          (timed (_parse_notification packet) received_time)
      else if decide (msg_type = ChatType.TEXT_DONATION) then
        _emit SoopChatEvent.TEXT_DONATION
          (timed (_parse_donation packet) received_time)
      else if decide (msg_type = ChatType.VIDEO_DONATION) then
        _emit SoopChatEvent.VIDEO_DONATION
          (timed (_parse_donation packet) received_time)
      else if decide (msg_type = ChatType.AD_BALLOON_DONATION) then
        _emit SoopChatEvent.AD_BALLOON_DONATION
          (timed (_parse_donation packet) received_time)
      else if decide (msg_type = ChatType.EMOTICON) then
        _emit SoopChatEvent.EMOTICON
          (timed (_parse_emoticon packet) received_time)
      else if decide (msg_type = ChatType.DISCONNECT) then
        disconnect
      else
        let parts := split FF packet in
        _emit SoopChatEvent.UNKNOWN
          (PDict [(lit "type", VStr msg_type);
                  (lit "parts", VList parts);
                  (lit "time", VStr received_time)])
  end.

(** What the surroundings contribute to one run of [connect()]: the outcome
    of the HTTP resolution with the JSON reading (the descriptor as the
    dataclass types it, or the exception raised on the way), the outcome of
    the WebSocket handshake, the messages the socket delivers until the
    connection closes, and whether the iteration then ends by raising
    [ConnectionClosed] or just stops. *)
Record session_env := {
  resolved : exn + LiveDetail;
  handshake : option exn;
  inbound : list ws_data;
  ends_closed_error : bool
}.

Definition NOT_LIVE : str :=
  [48169; 49569; 32; 51473; 51060; 32; 50500; 45785; 45768; 45796].

(** [_get_live_detail()] *)
Definition _get_live_detail (env : session_env) : M LiveDetail :=
  self ← get_self;
  let url := lit "https://live.sooplive.co.kr/afreeca/player_live_api.php?bjid="
             ++ streamer_id self in
  let data :=
    [(lit "bid", streamer_id self); (lit "bno", []);
     (lit "type", lit "live"); (lit "confirm_adult", lit "false");
     (lit "player_type", lit "html5"); (lit "mode", lit "landing");
     (lit "from_api", lit "0"); (lit "pwd", []);
     (lit "stream_type", lit "common"); (lit "quality", lit "HD")] in
  log (HttpPost url data);;
  lift (resolved env).

(** [async for message in self.ws: await self._handle_message(message)] *)
Fixpoint receive (messages : list ws_data) : M unit :=
  match messages with
  | [] => ret tt
  | message :: rest => _handle_message message;; receive rest
  end.

(** [try: body  except ConnectionClosed: handler] *)
Definition except_closed (body handler : M unit) : M unit :=
  fun s => match body s with
           | (inl ConnectionClosed, s') => handler s'
           | r => r
           end.

Section Interpreter.

(** The interpreter's lowercase mapping on text that is not all ASCII. *)
Variable unicode_lower : str -> str.

(** [_make_chat_url()] *)
Definition _make_chat_url (self : client) : exn + str :=
  match live_detail self with
  | None => inl AttributeError
  | Some d =>
      let domain := lower unicode_lower (chat_domain d) in
      let port := (chat_port d + 1)%Z in
      inr (lit "wss://" ++ domain ++ lit ":" ++ str_of_Z port
           ++ lit "/Websocket/" ++ streamer_id self)
  end.

(** [connect()].  The iteration over the socket ends only once the
    connection has closed, so the socket is no longer open from there on. *)
Definition connect (env : session_env) : M unit :=
  self ← get_self;
  if _connected self then raise (Exception (lit "Already connected"))
  else
    detail ← _get_live_detail env;
    set_live_detail (Some detail);;
    if (result detail =? 0)%Z then raise (Exception NOT_LIVE)
    else
      self ← get_self;
      chat_url ← lift (_make_chat_url self);
      print (LogConnectUrl chat_url);;
      log (WsConnect chat_url [lit "chat"] false);;
      match handshake env with
      | Some e => raise e
      | None =>
          set_ws (Some {| ws_url := chat_url |});;
          set_sock_open true;;
          connect_packet ← lift _get_connect_packet;
          ws_send connect_packet;;
          log TaskCreate;;
          set_ping_task (Some PingTask);;
          except_closed
            (receive (inbound env);;
             set_sock_open false;;
             if ends_closed_error env then raise ConnectionClosed
             else ret tt)
            disconnect
      end.

End Interpreter.

(** ** Reading a run *)

(** The events emitted, in order, and their kinds. *)
Definition emitted (tr : list effect) : list (str * payload) :=
  omap (fun e => match e with Emit k d => Some (k, d) | _ => None end) tr.

Definition kinds (tr : list effect) : list str := fst <$> emitted tr.

(** The subscribers invoked, in order. *)
Definition invoked (tr : list effect) : list (nat * payload) :=
  omap (fun e => match e with Call h d => Some (h, d) | _ => None end) tr.

Definition fresh_world (clk : nat -> str) : world :=
  {| trace := []; sock_open := false; clock := clk; tick := 0 |}.

Definition start (c : client) (clk : nat -> str) : state :=
  {| cl := c; wd := fresh_world clk |}.

(** ** Vocabulary of the specification *)

(** [n] as [k] decimal digits, zero-padded on the left (the low [k] digits
    when [n] needs more). *)
Fixpoint dec (k : nat) (n : N) : str :=
  match k with
  | O => []
  | S k' => dec k' (n / 10) ++ [digit (n mod 10)]
  end.

(** The six digits of a length field, written out. *)
Definition decimal6 (n : N) : str :=
  [digit (n / 100000 mod 10); digit (n / 10000 mod 10);
   digit (n / 1000 mod 10); digit (n / 100 mod 10);
   digit (n / 10 mod 10); digit (n mod 10)].

(** [packet] is a well-formed frame for [chat_type] and [payload], whose
    UTF-8 encoding has [size] bytes: it is laid out as marker, type, length
    field, ["00"], payload; the length field reads back as [size] and is the
    six-digit field of the header layout as long as [size] fits six digits.
    The bytes are counted on the encoding itself. *)
Definition frame_of (chat_type payload : str) (size : N) (packet : str)
  : Prop :=
  (exists bs : bytes,
      encode_utf8 payload = Some bs /\ size = N.of_nat (length bs))
  /\ exists field : str,
       packet = STARTER ++ chat_type ++ field ++ lit "00" ++ payload
       /\ N_of_str field = Some size
       /\ (size < 1000000 -> field = decimal6 size).

(** A message begins with the start marker. *)
Definition begins_with_starter (packet : str) : Prop :=
  exists rest, packet = STARTER ++ rest.

(** ** Vocabulary for runs *)

(** The state after the effects [t] have happened. *)
Definition record (t : list effect) (s : state) : state :=
  {| cl := cl s;
     wd := {| trace := trace (wd s) ++ t; sock_open := sock_open (wd s);
              clock := clock (wd s); tick := tick (wd s) |} |}.

(** The handlers registered for an event, in registration order. *)
Definition subscribers (c : client) (event : str) : list handler :=
  default [] (handlers c !! event).

(** Calling handlers in order until one raises: the exception, if any, and
    the calls made. *)
Fixpoint run_calls (hs : list handler) (data : payload)
  : option exn * list effect :=
  match hs with
  | [] => (None, [])
  | h :: hs' =>
      match h_run h data with
      | Some e => (Some e, [Call (h_id h) data])
      | None => let '(o, t) := run_calls hs' data in
                (o, Call (h_id h) data :: t)
      end
  end.

Definition outcome (o : option exn) : exn + unit :=
  match o with Some e => inl e | None => inr tt end.

(** No subscriber of [event] raises on [data]; no subscriber raises at all. *)
Definition quiet_on (c : client) (event : str) (data : payload) : Prop :=
  fst (run_calls (subscribers c event) data) = None.

Definition quiet (c : client) : Prop :=
  forall event data, quiet_on c event data.

(** The calls a quiet table makes for an event. *)
Definition calls (c : client) (event : str) (data : payload) : list effect :=
  (fun h => Call (h_id h) data) <$> subscribers c event.

(** The inbound type codes whose branch of [_handle_message] emits an event
    of its own kind directly. *)
Definition decoded_kinds : list (str * str) :=
  [(lit "0001", lit "connect"); (lit "0002", lit "enter_chat_room");
   (lit "0005", lit "chat"); (lit "0018", lit "text_donation");
   (lit "0087", lit "ad_balloon_donation"); (lit "0104", lit "notification");
   (lit "0105", lit "video_donation"); (lit "0109", lit "emoticon")].

(** The inbound kind table of the specification. *)
Definition inbound_table : list (str * str) :=
  [(lit "0001", lit "connect"); (lit "0002", lit "enter_chat_room");
   (lit "0004", lit "exit"); (lit "0005", lit "chat");
   (lit "0007", lit "disconnect"); (lit "0012", lit "enter_info");
   (lit "0018", lit "text_donation"); (lit "0087", lit "ad_balloon_donation");
   (lit "0093", lit "subscribe"); (lit "0104", lit "notification");
   (lit "0105", lit "video_donation"); (lit "0109", lit "emoticon");
   (lit "0127", lit "viewer")].

(** The payload of an [unknown] event. *)
Definition unknown_payload (msg_type packet received_time : str) : payload :=
  PDict [(lit "type", VStr msg_type);
         (lit "parts", VList (split FF packet));
         (lit "time", VStr received_time)].

(** The resolution request of [_get_live_detail]. *)
Definition resolve_request (sid : str) : effect :=
  HttpPost (lit "https://live.sooplive.co.kr/afreeca/player_live_api.php?bjid="
            ++ sid)
    [(lit "bid", sid); (lit "bno", []);
     (lit "type", lit "live"); (lit "confirm_adult", lit "false");
     (lit "player_type", lit "html5"); (lit "mode", lit "landing");
     (lit "from_api", lit "0"); (lit "pwd", []);
     (lit "stream_type", lit "common"); (lit "quality", lit "HD")].

(** The WebSocket URL in the words of the specification. *)
Definition chat_url_of (lowered_host port_text room_id : str) : str :=
  lit "wss://" ++ lowered_host ++ lit ":" ++ port_text
  ++ lit "/Websocket/" ++ room_id.


(** The state in which [connect()] starts reading the socket: descriptor
    stored, socket open at [url], CONNECT sent, keepalive task created. *)
Definition joined_state (s : state) (d : LiveDetail) (url : str) : state :=
  {| cl := {| streamer_id := streamer_id (cl s);
              ws := Some {| ws_url := url |};
              live_detail := Some d;
              handlers := handlers (cl s);
              _connected := _connected (cl s);
              _entered := _entered (cl s);
              _ping_task := Some PingTask |};
     wd := {| trace := trace (wd s)
                       ++ [resolve_request (streamer_id (cl s));
                           Print (LogConnectUrl url);
                           WsConnect url [lit "chat"] false;
                           WsSend (STARTER ++ lit "0001" ++ lit "000006"
                                   ++ lit "00" ++ connect_payload);
                           TaskCreate];
              sock_open := true;
              clock := clock (wd s);
              tick := tick (wd s) |} |}.

(** The state once the connection has closed. *)
Definition hung_up (s : state) : state :=
  {| cl := cl s;
     wd := {| trace := trace (wd s); sock_open := false;
              clock := clock (wd s); tick := tick (wd s) |} |}.

(** The reading loop of [connect()] with its exception handler. *)
Definition reading_loop (env : session_env) : M unit :=
  except_closed
    (receive (inbound env);;
     set_sock_open false;;
     if ends_closed_error env then raise ConnectionClosed else ret tt)
    disconnect.

(** A session of client [c0] on descriptor [d] that can still talk: the
    subscription table and the room are those of [c0], the descriptor is
    stored, the socket object is there and open. *)
Definition ready (c0 : client) (d : LiveDetail) (s : state) : Prop :=
  handlers (cl s) = handlers c0
  /\ streamer_id (cl s) = streamer_id c0
  /\ live_detail (cl s) = Some d
  /\ is_Some (ws (cl s))
  /\ sock_open (wd s) = true.

(** ** Scenarios *)

(** The descriptor of the happy path: live, chat host [Chat-X], chat port
    5000, room number 99. *)
Definition happy_detail : LiveDetail :=
  {| result := 1; chat_domain := lit "Chat-X"; chat_port := 5000;
     chat_no := lit "99"; bj_id := lit "bj"; bj_nick := lit "nick";
     title := lit "title"; ftk := []; bps := 0; geo_cc := []; geo_rc := [];
     acpt_lang := []; svc_lang := []; view_preset := [] |}.


(** A clock whose readings are 0, 1, 2, ... *)
Definition counting_clock (n : nat) : str := str_of_N (N.of_nat n).

(** A subscriber that returns, and one that raises. *)
Definition recorder (id : nat) : handler :=
  {| h_id := id; h_run := fun _ => None |}.

Definition faulty (id : nat) : handler :=
  {| h_id := id; h_run := fun _ => Some (OtherError id) |}.

(** A client for room [room] with nobody subscribed; one with two recording
    subscribers; one whose first [chat] subscriber raises. *)
Definition bare_client : client := __init__ (lit "room").

Definition watched_client : client :=
  on SoopChatEvent.DISCONNECT (recorder 3)
    (on SoopChatEvent.CHAT (recorder 2)
       (on SoopChatEvent.CHAT (recorder 1) bare_client)).

Definition faulty_client : client :=
  on SoopChatEvent.CHAT (recorder 2)
    (on SoopChatEvent.CHAT (faulty 1) bare_client).

(** A client that resolved the happy path. *)
Definition resolved_client : client :=
  {| streamer_id := lit "room"; ws := None; live_detail := Some happy_detail;
     handlers := ∅; _connected := false; _entered := false;
     _ping_task := None |}.

(** The same room with a number that is one Hangul syllable: one
    character, three bytes. *)
Definition hangul_detail : LiveDetail :=
  {| result := 1; chat_domain := lit "Chat-X"; chat_port := 5000;
     chat_no := [48169]; bj_id := lit "bj"; bj_nick := lit "nick";
     title := lit "title"; ftk := []; bps := 0; geo_cc := []; geo_rc := [];
     acpt_lang := []; svc_lang := []; view_preset := [] |}.

Definition hangul_client : client :=
  {| streamer_id := lit "room"; ws := None; live_detail := Some hangul_detail;
     handlers := ∅; _connected := false; _entered := false;
     _ping_task := None |}.

(** An inbound text frame with an empty length field's worth of zeros. *)
Definition frame (chat_type : string) (payload : str) : str :=
  STARTER ++ lit chat_type ++ lit "000000" ++ lit "00" ++ payload.

(** The chat frame of the decode scenario: comment X, user user7, name
    Nick. *)
Definition chat_frame : str :=
  frame "0005" ([FF] ++ lit "X" ++ [FF] ++ lit "user7" ++ [FF; FF; FF; FF]
                ++ lit "Nick" ++ [FF]).

(** The scripted session: acknowledgement, room entered, one chat line,
    server disconnect, then the socket iteration ends with an error. *)
Definition scripted_session : session_env :=
  {| resolved := inr happy_detail;
     handshake := None;
     inbound := [Text (frame "0001" []); Text (frame "0002" []);
                 Text chat_frame; Text (frame "0007" [])];
     ends_closed_error := true |}.


(** ** Vocabulary for the remaining functions *)

(** [sep.join(segs)] for a one-character separator. *)
Fixpoint join_with (sep : char) (segs : list str) : str :=
  match segs with
  | [] => []
  | s :: rest =>
      match rest with
      | [] => s
      | _ :: _ => s ++ sep :: join_with sep rest
      end
  end.

(** The segment at a position, the empty text where there is none. *)
Definition seg (segs : list str) (i : nat) : str := default [] (segs !! i).

(** A code point that [encode('utf-8')] refuses. *)
Definition unencodable (c : char) : Prop :=
  (55296 <= c /\ c <= 57343) \/ 1114112 <= c.

(** The PING frame as it goes on the wire. *)
Definition ping_frame : str :=
  STARTER ++ lit "0000" ++ lit "000001" ++ lit "00" ++ [FF].

(** How one [await asyncio.sleep(60)] of the keepalive task ends: the
    minute passes, or the task is cancelled while it sleeps and the sleep
    raises [CancelledError]. *)
Inductive sleep_end :=
| Woke
| Cancelled.

Global Instance sleep_end_eq_dec : EqDecision sleep_end.
Proof. solve_decision. Defined.

(** How a bounded observation of [_ping_loop] ends when nothing was
    raised: the task is asleep again, or the loop was left through
    [break]. *)
Inductive loop_end :=
| StillSleeping
| Broken.

(** [_ping_loop()], observed over the sleeps it goes through.  The sleep is
    outside the [try], so its [CancelledError] leaves the loop; the bare
    [except] around the send catches whatever the send raises. *)
Fixpoint _ping_loop (sleeps : list sleep_end) : M loop_end :=
  match sleeps with
  | [] => ret StillSleeping
  | Cancelled :: _ => raise CancelledError
  | Woke :: later =>
      self ← get_self;
      match ws self with
      | Some _ =>
          sent ← try (packet ← lift _get_ping_packet; ws_send packet);
          match sent with
          | inl _ => ret Broken
          | inr _ => _ping_loop later
          end
      | None => _ping_loop later
      end
  end.

(** A run of the keepalive in which every sleep lasts its minute. *)
Definition wakeups (n : nat) : list sleep_end := replicate n Woke.

(** The frames sent, in order. *)
Definition sent (tr : list effect) : list str :=
  omap (fun e => match e with WsSend p => Some p | _ => None end) tr.

(** An effect that releases a resource of the session. *)
Definition release_effect (e : effect) : Prop :=
  match e with
  | WsClose | TaskCancel => True
  | _ => False
  end.

(** The payload of the [disconnect] event. *)
Definition disconnect_payload (sid time : str) : payload :=
  PDict [(lit "streamer_id", VStr sid); (lit "time", VStr time)].

(** Two states with the same subscription table and room, the second
    entered if the first was. *)
Definition keeps_subscriptions (s s' : state) : Prop :=
  handlers (cl s') = handlers (cl s)
  /\ streamer_id (cl s') = streamer_id (cl s)
  /\ (_entered (cl s) = true -> _entered (cl s') = true).

(** The client after [disconnect()] has released what it held. *)
Definition released (c : client) : client :=
  {| streamer_id := streamer_id c; ws := None; live_detail := live_detail c;
     handlers := handlers c; _connected := false; _entered := _entered c;
     _ping_task := None |}.

(** ** Further scenarios *)

(** A session that delivers the acknowledgement and whose iteration then
    ends without an exception; the same ending with [ConnectionClosed]. *)
Definition ack_session : session_env :=
  {| resolved := inr happy_detail;
     handshake := None;
     inbound := [Text (frame "0001" [])];
     ends_closed_error := false |}.

Definition dropped_session : session_env :=
  {| resolved := inr happy_detail;
     handshake := None;
     inbound := [Text (frame "0001" [])];
     ends_closed_error := true |}.

(** Resolution that fails, and a handshake that is refused. *)
Definition unresolved_session : session_env :=
  {| resolved := inl (OtherError 4);
     handshake := None;
     inbound := [];
     ends_closed_error := false |}.

Definition refused_session : session_env :=
  {| resolved := inr happy_detail;
     handshake := Some (OtherError 7);
     inbound := [];
     ends_closed_error := false |}.

(** The state in which [connect()] leaves the watched client when the
    connection closes normally after the acknowledgement: still marked
    connected, socket object and keepalive task still held, the connection
    closed. *)
Definition acked_state : state :=
  snd (connect (fun host => host) ack_session
         (start watched_client counting_clock)).

(** The watched client in the middle of a run of [connect()]: the
    acknowledgement was handled, the JOIN is out and the socket is waiting
    for the next message. *)
Definition talking_state : state :=
  snd (_handle_message (Text (frame "0001" []))
         (joined_state (start watched_client counting_clock) happy_detail
            (lit "wss://chat-x:5001/Websocket/room"))).

(** A connected client whose [disconnect] subscriber raises, and a client
    whose [raw] subscriber raises. *)
Definition grumpy_state : state :=
  {| cl := {| streamer_id := lit "room";
              ws := Some {| ws_url := lit "wss://chat-x:5001/Websocket/room" |};
              live_detail := Some happy_detail;
              handlers := {[ lit "disconnect" := [faulty 8] ]};
              _connected := true; _entered := true;
              _ping_task := Some PingTask |};
     wd := {| trace := []; sock_open := true; clock := counting_clock;
              tick := 0 |} |}.

Definition noisy_client : client :=
  on SoopChatEvent.RAW (faulty 5) bare_client.


(** ** Decimal text *)

Lemma dec_length k n : length (dec k n) = k.
Proof.
  revert n; induction k as [|k IH]; intros n; simpl; [done|].
  rewrite length_app, IH; simpl; lia.
Qed.

Lemma dec_zero k : dec k 0 = replicate k 48.
Proof.
  induction k as [|k IH]; [done|]. cbn [dec].
  change (0 / 10) with 0. rewrite IH.
  change [digit (0 mod 10)] with (replicate 1 48).
  rewrite <- replicate_add. f_equal; lia.
Qed.

Lemma pow10_succ k : 10 ^ N.of_nat (S k) = 10 * 10 ^ N.of_nat k.
Proof. rewrite Nat2N.inj_succ. apply N.pow_succ_r'. Qed.

Lemma div10_lt k n : n < 10 ^ N.of_nat (S k) -> n / 10 < 10 ^ N.of_nat k.
Proof.
  rewrite pow10_succ. intros H.
  by apply N.Div0.div_lt_upper_bound.
Qed.

(** Padding a [j]-digit number to [i + j] digits puts [i] zeros in front. *)
Lemma dec_pad i j n :
  n < 10 ^ N.of_nat j -> dec (i + j) n = replicate i 48 ++ dec j n.
Proof.
  revert n; induction j as [|j IH]; intros n H.
  - simpl in H. assert (n = 0) as -> by lia.
    rewrite Nat.add_0_r, dec_zero; simpl. by rewrite app_nil_r.
  - replace (i + S j)%nat with (S (i + j)) by lia. simpl.
    rewrite IH by (by apply div10_lt). by rewrite <- app_assoc.
Qed.

Lemma digits_from_acc bound n acc :
  digits_from bound n acc = digits_from bound n [] ++ acc.
Proof.
  revert n acc; induction bound as [b IH|b IH|]; intros n acc; simpl;
    destruct (N.eqb (n / 10) 0); try done.
  - rewrite IH, (IH _ [_]). by rewrite <- app_assoc.
  - rewrite IH, (IH _ [_]). by rewrite <- app_assoc.
Qed.

Lemma digits_from_eq bound n acc :
  digits_from bound n acc =
  if N.eqb (n / 10) 0 then digit (n mod 10) :: acc
  else match bound with
       | xH => digit (n mod 10) :: acc
       | xO b | xI b => digits_from b (n / 10) (digit (n mod 10) :: acc)
       end.
Proof. by destruct bound. Qed.

(** [digits_from] writes the shortest decimal form of [n]. *)
Lemma digits_from_dec bound n :
  n <= Npos bound ->
  exists j, (1 <= j)%nat /\ digits_from bound n [] = dec j n
            /\ n < 10 ^ N.of_nat j
            /\ forall k, (1 <= k)%nat -> n < 10 ^ N.of_nat k -> (j <= k)%nat.
Proof.
  revert n; induction bound as [b IH|b IH|]; intros n Hn;
    rewrite digits_from_eq; destruct (N.eqb_spec (n / 10) 0) as [E|E].
  all: try (exists 1%nat; cbn [dec]; rewrite app_nil_l;
            assert (n < 10) by (apply N.div_small_iff in E; lia);
            split; [lia|]; split; [done|]; split; [done|]; intros; lia).
  3: { exfalso. apply E, N.div_small. lia. }
  all: assert (Hb : n / 10 <= N.pos b)
         by (apply N.Div0.div_le_upper_bound; lia);
       destruct (IH _ Hb) as (j & Hj & Hd & Hlt & Hmin);
       exists (S j); rewrite digits_from_acc, Hd; cbn [dec].
  all: split; [lia|]; split; [done|]; split.
  all: try (rewrite pow10_succ;
            pose proof (N.Div0.div_mod n 10) as Hdm;
            pose proof (N.mod_upper_bound n 10); lia).
  all: intros k Hk Hnk; destruct k as [|k]; [lia|];
       assert (k <> 0)%nat
         by (intros ->; change (10 ^ N.of_nat 1) with 10 in Hnk;
             apply E, N.div_small; lia);
       apply div10_lt in Hnk; specialize (Hmin k); lia.
Qed.

Lemma str_of_N_dec n :
  exists j, (1 <= j)%nat /\ str_of_N n = dec j n
            /\ n < 10 ^ N.of_nat j
            /\ forall k, (1 <= k)%nat -> n < 10 ^ N.of_nat k -> (j <= k)%nat.
Proof.
  destruct n as [|p].
  - exists 1%nat. split; [lia|]; split; [done|]; split; [done|]. intros; lia.
  - apply digits_from_dec. lia.
Qed.

Lemma str_of_N_length n k :
  (1 <= k)%nat -> n < 10 ^ N.of_nat k -> (length (str_of_N n) <= k)%nat.
Proof.
  intros Hk Hn. destruct (str_of_N_dec n) as (j & _ & -> & _ & Hmin).
  rewrite dec_length. by apply Hmin.
Qed.

Lemma digit_not_sign d : d < 10 -> N.eqb (digit d) 43 || N.eqb (digit d) 45 = false.
Proof.
  intros H. unfold digit.
  destruct (N.eqb_spec (48 + d) 43), (N.eqb_spec (48 + d) 45); simpl; lia.
Qed.

Lemma dec_head k n :
  match dec k n with
  | c :: _ => N.eqb c 43 || N.eqb c 45 = false
  | [] => True
  end.
Proof.
  revert n; induction k as [|k IH]; intros n; cbn [dec]; [done|].
  specialize (IH (n / 10)). destruct (dec k (n / 10)) as [|c r]; simpl.
  - apply digit_not_sign, N.mod_upper_bound. lia.
  - done.
Qed.

(** [str(n).zfill(k)] is [n] as [k] digits whenever [n] fits. *)
Lemma zfill_str_of_N k n :
  (1 <= k)%nat -> n < 10 ^ N.of_nat k -> zfill k (str_of_N n) = dec k n.
Proof.
  intros Hk Hn. destruct (str_of_N_dec n) as (j & Hj & E & Hlt & Hmin).
  specialize (Hmin k Hk Hn). rewrite E. unfold zfill. rewrite dec_length.
  pose proof (dec_head j n) as Hh. pose proof (dec_length j n) as Hl.
  assert (Hp : dec k n = replicate (k - j) 48 ++ dec j n).
  { rewrite <- dec_pad by done. f_equal. lia. }
  rewrite Hp. destruct (dec j n) as [|c r]; [simpl in Hl; lia|]. by rewrite Hh.
Qed.

(** A text longer than the width is left alone. *)
Lemma zfill_long k s :
  (k <= length s)%nat -> zfill k s = s.
Proof.
  intros H. unfold zfill. replace (k - length s)%nat with 0%nat by lia.
  simpl. destruct s as [|c r]; [done|]. by destruct (N.eqb c 43 || N.eqb c 45).
Qed.

Lemma dec6_decimal6 n : dec 6 n = decimal6 n.
Proof.
  unfold decimal6. cbn [dec app].
  rewrite !N.Div0.div_div. reflexivity.
Qed.

Lemma int_digits_app acc s t :
  int_digits acc (s ++ t) = int_digits acc s ≫= fun a => int_digits a t.
Proof.
  revert acc; induction s as [|c r IH]; intros acc; simpl; [done|].
  destruct (digit_val c); [apply IH | done].
Qed.

Lemma digit_val_digit d : d < 10 -> digit_val (digit d) = Some d.
Proof.
  intros H. unfold digit_val, digit.
  destruct (N.leb_spec 48 (48 + d)); [|lia].
  destruct (N.leb_spec (48 + d) 57); [|lia]. simpl. f_equal. lia.
Qed.

Lemma int_digits_dec k n acc :
  n < 10 ^ N.of_nat k -> int_digits acc (dec k n) = Some (acc * 10 ^ N.of_nat k + n).
Proof.
  revert n acc; induction k as [|k IH]; intros n acc H.
  - simpl in *. f_equal. lia.
  - cbn [dec]. rewrite int_digits_app, IH by (by apply div10_lt).
    simpl. rewrite digit_val_digit by (apply N.mod_upper_bound; lia).
    f_equal. rewrite pow10_succ.
    pose proof (N.Div0.div_mod n 10). lia.
Qed.

(** Reading a zero-padded number back gives the number. *)
Lemma N_of_str_dec k n :
  (1 <= k)%nat -> n < 10 ^ N.of_nat k -> N_of_str (dec k n) = Some n.
Proof.
  intros Hk H. unfold N_of_str.
  pose proof (dec_length k n) as Hl.
  destruct (dec k n) as [|c r] eqn:E; [simpl in Hl; lia|].
  by rewrite <- E, int_digits_dec by done.
Qed.

Lemma N_of_str_zfill k n :
  N_of_str (zfill k (str_of_N n)) = Some n.
Proof.
  destruct (str_of_N_dec n) as (j & Hj & E & Hlt & Hmin).
  destruct (decide (k <= j)%nat) as [Hk|Hk].
  - rewrite zfill_long by (rewrite E, dec_length; lia).
    rewrite E. by apply N_of_str_dec.
  - unfold zfill. rewrite E, dec_length.
    pose proof (dec_head j n) as Hh. pose proof (dec_length j n) as Hl.
    destruct (dec j n) as [|c r] eqn:Ed; [simpl in Hl; lia|]. rewrite Hh.
    rewrite <- Ed. rewrite <- dec_pad by done.
    apply N_of_str_dec; [lia|].
    eapply N.lt_le_trans; [exact Hlt|].
    apply N.pow_le_mono_r; lia.
Qed.

Lemma N_of_str_str_of_N n : N_of_str (str_of_N n) = Some n.
Proof. rewrite <- (zfill_long 0 (str_of_N n)) by lia. apply N_of_str_zfill. Qed.

Lemma Z_of_str_str_of_Z z : Z_of_str (str_of_Z z) = Some z.
Proof.
  destruct z as [|p|p]; unfold str_of_Z.
  - done.
  - unfold Z_of_str. destruct (str_of_N_dec (Z.to_N (Z.pos p))) as (j & Hj & E & _).
    pose proof (dec_head j (Z.to_N (Z.pos p))) as Hh.
    pose proof (dec_length j (Z.to_N (Z.pos p))) as Hl.
    rewrite N_of_str_str_of_N. rewrite E.
    destruct (dec j _) as [|c r]; [simpl in Hl; lia|].
    destruct (N.eqb_spec c 45) as [->|Hc].
    + rewrite orb_true_r in Hh. done.
    + simpl. destruct c as [|q]; [done|].
      repeat (destruct q as [q|q|]; try done).
  - unfold Z_of_str. rewrite N_of_str_str_of_N. simpl. done.
Qed.

(** ** UTF-8 sizes *)

Lemma encode_char_length c b :
  encode_char c = Some b ->
  (1 <= length b)%nat /\ (128 <= c -> (2 <= length b)%nat).
Proof.
  unfold encode_char. intros H.
  destruct (N.ltb_spec c 128).
  { injection H as <-. simpl. split; [lia|]. intros; lia. }
  destruct (c <? 2048); [injection H as <-; simpl; split; intros; lia|].
  destruct ((55296 <=? c) && (c <=? 57343)); [done|].
  destruct (c <? 65536); [injection H as <-; simpl; split; intros; lia|].
  destruct (c <? 1114112); [injection H as <-; simpl; split; intros; lia|done].
Qed.

Lemma encode_utf8_cons c r bs :
  encode_utf8 (c :: r) = Some bs ->
  exists b bs', encode_char c = Some b /\ encode_utf8 r = Some bs'
                /\ bs = b ++ bs'.
Proof.
  simpl. destruct (encode_char c) as [b|]; [|done].
  destruct (encode_utf8 r) as [bs'|]; [|done].
  intros [= <-]. by exists b, bs'.
Qed.

(** Encoding never shrinks a text, and one character outside ASCII makes
    the byte count exceed the character count. *)
Lemma encode_utf8_length s bs :
  encode_utf8 s = Some bs ->
  (length s <= length bs)%nat
  /\ ((exists c, c ∈ s /\ 128 <= c) -> (length s < length bs)%nat).
Proof.
  revert bs; induction s as [|c r IH]; intros bs H.
  - injection H as <-. split; [done|]. intros (c & Hc & _).
    by apply not_elem_of_nil in Hc.
  - apply encode_utf8_cons in H as (b & bs' & Hb & Hr & ->).
    destruct (IH _ Hr) as [Hle Hlt].
    destruct (encode_char_length _ _ Hb) as [H1 H2].
    rewrite length_app. simpl. split; [lia|].
    intros (c' & Hin & Hc'). apply elem_of_cons in Hin as [->|Hin].
    + specialize (H2 Hc'). lia.
    + assert (length r < length bs')%nat by (apply Hlt; eauto). lia.
Qed.

Lemma encode_utf8_app s t a b :
  encode_utf8 s = Some a -> encode_utf8 t = Some b ->
  encode_utf8 (s ++ t) = Some (a ++ b).
Proof.
  revert a; induction s as [|c r IH]; intros a Hs Ht.
  - by injection Hs as <-.
  - apply encode_utf8_cons in Hs as (x & a' & Hx & Hr & ->).
    simpl. rewrite Hx, (IH _ Hr Ht). by rewrite <- app_assoc.
Qed.

(** ** Header parsing *)

Lemma startswith_spec s p :
  startswith s p = true <-> exists rest, s = p ++ rest.
Proof.
  revert s; induction p as [|c p IH]; intros s; simpl.
  - split; [by exists s|done].
  - destruct s as [|d s]; [split; [done|intros (? & ?); done]|].
    destruct (N.eqb_spec c d) as [->|Hne].
    + rewrite IH. split; intros (rest & E); exists rest; congruence.
    + split; [done|]. intros (rest & E). congruence.
Qed.

Lemma begins_with_starter_spec packet :
  begins_with_starter packet <-> startswith packet STARTER = true.
Proof. symmetry. apply startswith_spec. Qed.

Lemma parse_rejects_prefix packet :
  ~ begins_with_starter packet ->
  _parse_message_type packet
  = inl (Exception (lit "Invalid packet: does not start with STARTER")).
Proof.
  intros H. unfold _parse_message_type.
  destruct (startswith packet STARTER) eqn:E; [|done].
  exfalso. by apply H, begins_with_starter_spec.
Qed.

Lemma parse_rejects_short packet :
  begins_with_starter packet -> (length packet < 5)%nat ->
  _parse_message_type packet = inl (Exception (lit "Invalid packet: too short")).
Proof.
  intros H Hl. unfold _parse_message_type.
  apply begins_with_starter_spec in H as ->. simpl.
  unfold len. destruct (N.leb_spec 5 (N.of_nat (length packet))); [lia|done].
Qed.

Lemma parse_accepts packet a b c d rest :
  packet = STARTER ++ [a; b; c; d] ++ rest ->
  _parse_message_type packet = inr [a; b; c; d].
Proof.
  intros ->. unfold _parse_message_type.
  replace (startswith _ STARTER) with true
    by (symmetry; apply startswith_spec; eauto).
  simpl. unfold len. simpl length.
  destruct (N.leb_spec 5 (N.of_nat (S (S (S (S (S (S (length rest)))))))));
    [done|lia].
Qed.

Lemma parse_accepts_type packet chat_type rest :
  length chat_type = 4%nat ->
  packet = STARTER ++ chat_type ++ rest ->
  _parse_message_type packet = inr chat_type.
Proof.
  intros Hl ->.
  destruct chat_type as [|a [|b [|c [|d [|]]]]]; try done.
  by eapply parse_accepts.
Qed.

(** ** Claims about the frame codec *)

(** C4 (as amended).  Header parsing raises whenever the message does not
    begin with STARTER or has fewer than five characters, and for every
    message that begins with STARTER and has at least six characters (every
    message of header length, fourteen, among them) it returns the four
    characters at 0-indexed positions 2 to 5 as type code. *)
Theorem parse_message_type_header (packet : str) :
  (~ begins_with_starter packet ->
   _parse_message_type packet
   = inl (Exception (lit "Invalid packet: does not start with STARTER")))
  /\ (begins_with_starter packet -> (length packet < 5)%nat ->
      _parse_message_type packet
      = inl (Exception (lit "Invalid packet: too short")))
  /\ (begins_with_starter packet -> (6 <= length packet)%nat ->
      exists a b c d,
        packet !! 2%nat = Some a /\ packet !! 3%nat = Some b
        /\ packet !! 4%nat = Some c /\ packet !! 5%nat = Some d
        /\ _parse_message_type packet = inr [a; b; c; d]).
Proof.
  split; [apply parse_rejects_prefix|].
  split; [apply parse_rejects_short|].
  intros (rest & ->) Hl.
  destruct rest as [|a [|b [|c [|d rest]]]]; simpl in Hl; try lia.
  exists a, b, c, d. repeat split. by eapply parse_accepts.
Qed.

(** The amended C4 at a header-length message and at the two ways to fail. *)
Lemma parse_message_type_header_witness :
  let good := STARTER ++ lit "0005" ++ lit "000000" ++ lit "00" in
  begins_with_starter good /\ (6 <= length good)%nat
  /\ _parse_message_type good = inr (lit "0005")
  /\ ~ begins_with_starter (lit "0005")
  /\ (exists e, _parse_message_type (lit "0005") = inl e)
  /\ (exists e, _parse_message_type (STARTER ++ lit "00") = inl e).
Proof.
  intros good.
  destruct (parse_message_type_header good) as (_ & _ & Hok).
  destruct (parse_message_type_header (lit "0005")) as (Hbad & _ & _).
  destruct (parse_message_type_header (STARTER ++ lit "00")) as (_ & Hshort & _).
  assert (Hg : begins_with_starter good) by (by eexists).
  assert (Hn : ~ begins_with_starter (lit "0005")).
  { intros (rest & E). discriminate E. }
  split; [done|]. split; [simpl; lia|].
  split.
  { destruct (Hok Hg) as (a & b & c & d & Ha & Hb & Hc & Hd & E);
      [simpl; lia|].
    injection Ha as <-; injection Hb as <-; injection Hc as <-;
      injection Hd as <-. exact E. }
  split; [done|]. split; [eexists; by apply Hbad|].
  eexists. apply Hshort; [by eexists | simpl; lia].
Defined.

(** C4 as stated fails: a six-character message, shorter than the
    fourteen-character header, begins with STARTER and parses to its type. *)
Lemma parse_accepts_below_header_length :
  let packet := STARTER ++ lit "0005" in
  begins_with_starter packet
  /\ (length packet < 14)%nat
  /\ _parse_message_type packet = inr (lit "0005").
Proof.
  intros packet. split; [by exists (lit "0005")|]. split; [simpl; lia|].
  reflexivity.
Qed.

(** The boundary the amended C4 leaves open: at exactly five characters the
    length test passes and the slice holds only three characters. *)
Lemma parse_five_characters a b c :
  _parse_message_type (STARTER ++ [a; b; c]) = inr [a; b; c].
Proof. reflexivity. Qed.

Lemma get_packet_eq chat_type payload bs :
  encode_utf8 payload = Some bs ->
  _get_packet chat_type payload
  = inr (STARTER ++ chat_type ++ zfill 6 (str_of_N (N.of_nat (length bs)))
         ++ lit "00" ++ payload).
Proof.
  intros H. unfold _get_packet, _get_payload_length, _get_byte_size.
  rewrite H. by rewrite <- !app_assoc.
Qed.

Lemma length_field_six n :
  n < 1000000 -> zfill 6 (str_of_N n) = decimal6 n.
Proof.
  intros H. rewrite zfill_str_of_N; [apply dec6_decimal6 | lia | done].
Qed.

(** C6.  For every type code and every payload whose UTF-8 encoding [bs] is
    shorter than 1,000,000 bytes, the packet is STARTER, the type code, the
    byte length as six zero-padded decimal digits, ["00"], the payload; the
    six digits read back as the byte length, and with a character outside
    ASCII in the payload that length exceeds the character count. *)
Theorem get_packet_layout (chat_type payload : str) (bs : bytes) :
  encode_utf8 payload = Some bs ->
  N.of_nat (length bs) < 1000000 ->
  _get_packet chat_type payload
  = inr (STARTER ++ chat_type ++ decimal6 (N.of_nat (length bs))
         ++ lit "00" ++ payload)
  /\ N_of_str (decimal6 (N.of_nat (length bs))) = Some (N.of_nat (length bs))
  /\ ((exists c, c ∈ payload /\ 128 <= c) ->
      (length payload < length bs)%nat).
Proof.
  intros Henc Hlt. split; [|split].
  - rewrite (get_packet_eq _ _ _ Henc). by rewrite length_field_six.
  - rewrite <- dec6_decimal6. by apply N_of_str_dec; [lia|].
  - by apply encode_utf8_length.
Qed.

(** C6 at a chat frame whose payload is one Hangul syllable: one character,
    three bytes, length field 000003. *)
Lemma get_packet_layout_witness :
  let payload : str := [44032] in
  let encoded : bytes := [234; 176; 128] in
  encode_utf8 payload = Some encoded
  /\ N.of_nat (length encoded) < 1000000
  /\ _get_packet (lit "0005") payload
     = inr (STARTER ++ lit "0005" ++ lit "000003" ++ lit "00" ++ payload)
  /\ (length payload < length encoded)%nat.
Proof.
  intros payload encoded.
  destruct (get_packet_layout (lit "0005") payload encoded)
    as (Hp & _ & Hm); [reflexivity | reflexivity |].
  split; [reflexivity|]. split; [reflexivity|]. split; [exact Hp|].
  apply Hm. exists 44032. split; [apply list_elem_of_here | discriminate].
Defined.

Lemma frame_of_get_packet chat_type payload bs :
  encode_utf8 payload = Some bs ->
  exists packet, _get_packet chat_type payload = inr packet
                 /\ frame_of chat_type payload (N.of_nat (length bs)) packet.
Proof.
  intros H. eexists. split; [by apply get_packet_eq|].
  split; [by exists bs|].
  exists (zfill 6 (str_of_N (N.of_nat (length bs)))).
  split; [done|]. split; [apply N_of_str_zfill | apply length_field_six].
Qed.

Lemma frame_of_parses chat_type payload size packet :
  length chat_type = 4%nat -> frame_of chat_type payload size packet ->
  _parse_message_type packet = inr chat_type.
Proof.
  intros Hl (_ & field & -> & _). by eapply parse_accepts_type.
Qed.

(** C5.  Each outbound recipe yields a packet that header parsing accepts
    with the recipe's type, laid out around a length field that reads back
    as the UTF-8 byte length of the recipe's payload, the bytes counted on
    the encoding itself: 6 for CONNECT with type 0001 and payload
    SEP SEP SEP "16" SEP, 1 for PING with type 0000 and payload SEP, and for
    JOIN with type 0002 and payload SEP chat_no SEP SEP SEP SEP SEP the
    bytes of the room number's encoding plus the six separators (for a room
    number that has a UTF-8 encoding). *)
Theorem recipes_round_trip (self : client) (d : LiveDetail) (bs : bytes) :
  live_detail self = Some d ->
  encode_utf8 (chat_no d) = Some bs ->
  let connect_recipe := [FF; FF; FF] ++ lit "16" ++ [FF] in
  let join_recipe := [FF] ++ chat_no d ++ [FF; FF; FF; FF; FF] in
  let ping_recipe := [FF] in
  (exists packet,
      _get_connect_packet = inr packet
      /\ _parse_message_type packet = inr (lit "0001")
      /\ frame_of (lit "0001") connect_recipe 6 packet)
  /\ (exists packet,
      _get_join_packet self = inr packet
      /\ _parse_message_type packet = inr (lit "0002")
      /\ frame_of (lit "0002") join_recipe (N.of_nat (length bs) + 6) packet)
  /\ (exists packet,
      _get_ping_packet = inr packet
      /\ _parse_message_type packet = inr (lit "0000")
      /\ frame_of (lit "0000") ping_recipe 1 packet).
Proof.
  intros Hd Hbs connect_recipe join_recipe ping_recipe.
  assert (Hj : encode_utf8 join_recipe = Some ([12] ++ bs ++ [12; 12; 12; 12; 12])).
  { apply (encode_utf8_app [FF]); [done|]. by apply encode_utf8_app. }
  assert (Hsize : N.of_nat (length ([12] ++ bs ++ [12; 12; 12; 12; 12] : bytes))
                  = N.of_nat (length bs) + 6).
  { rewrite !length_app. cbn [length]. lia. }
  split; [|split].
  - destruct (frame_of_get_packet (lit "0001") connect_recipe [12; 12; 12; 49; 54; 12])
      as (packet & E & Hf); [done|].
    exists packet. split; [exact E|]. split; [|exact Hf].
    by eapply frame_of_parses.
  - destruct (frame_of_get_packet (lit "0002") join_recipe _ Hj)
      as (packet & E & Hf).
    rewrite Hsize in Hf.
    exists packet. split.
    { unfold _get_join_packet. rewrite Hd. exact E. }
    split; [|exact Hf]. by eapply frame_of_parses.
  - destruct (frame_of_get_packet (lit "0000") ping_recipe [12])
      as (packet & E & Hf); [done|].
    exists packet. split; [exact E|]. split; [|exact Hf].
    by eapply frame_of_parses.
Qed.

(** ** The dispatcher *)

Lemma record_record t1 t2 s : record t2 (record t1 s) = record (t1 ++ t2) s.
Proof. unfold record; simpl. by rewrite app_assoc. Qed.

Lemma log_eq e s : log e s = (inr tt, record [e] s).
Proof. reflexivity. Qed.

Lemma call_each_eq hs data s :
  call_each hs data s
  = (outcome (fst (run_calls hs data)), record (snd (run_calls hs data)) s).
Proof.
  revert s; induction hs as [|h hs IH]; intros s.
  - destruct s as [c [t o k n]]. unfold record; simpl. by rewrite app_nil_r.
  - cbn [call_each run_calls]. unfold mbind, M_bind, bind, invoke.
    unfold mbind, M_bind, bind. rewrite log_eq.
    destruct (h_run h data) as [e|]; [done|].
    unfold ret. rewrite IH.
    destruct (run_calls hs data) as [o t]. simpl. by rewrite record_record.
Qed.

Lemma emit_eq event data s :
  _emit event data s
  = (outcome (fst (run_calls (subscribers (cl s) event) data)),
     record (Emit event data
             :: snd (run_calls (subscribers (cl s) event) data)) s).
Proof.
  unfold _emit, mbind, M_bind, bind. rewrite log_eq.
  unfold get_self, subscribers. simpl.
  destruct (handlers (cl s) !! event) as [hs|]; simpl.
  - rewrite call_each_eq. by rewrite record_record.
  - done.
Qed.

Lemma run_calls_quiet hs data :
  fst (run_calls hs data) = None ->
  snd (run_calls hs data) = (fun h => Call (h_id h) data) <$> hs.
Proof.
  induction hs as [|h hs IH]; simpl; [done|].
  destruct (h_run h data); [done|].
  destruct (run_calls hs data) as [o t]. simpl in *.
  intros H. by rewrite IH.
Qed.

Lemma emit_quiet event data s :
  quiet_on (cl s) event data ->
  _emit event data s
  = (inr tt, record (Emit event data :: calls (cl s) event data) s).
Proof.
  intros H. rewrite emit_eq. unfold quiet_on in H. rewrite H.
  by rewrite run_calls_quiet.
Qed.

(** Handlers before the first one that raises are called, it is called,
    and nothing after it is. *)
Lemma run_calls_raise pre h post data e :
  Forall (fun h' => h_run h' data = None) pre ->
  h_run h data = Some e ->
  run_calls (pre ++ h :: post) data
  = (Some e, (fun h' => Call (h_id h') data) <$> (pre ++ [h])).
Proof.
  intros Hpre Hh. induction Hpre as [|h' pre Hh' _ IH]; simpl.
  - by rewrite Hh.
  - by rewrite Hh', IH.
Qed.

Lemma run_calls_return hs data :
  Forall (fun h => h_run h data = None) hs ->
  run_calls hs data = (None, (fun h => Call (h_id h) data) <$> hs).
Proof.
  intros H. induction H as [|h hs Hh _ IH]; simpl; [done|].
  by rewrite Hh, IH.
Qed.

Lemma emitted_app t1 t2 : emitted (t1 ++ t2) = emitted t1 ++ emitted t2.
Proof. apply omap_app. Qed.

Lemma invoked_app t1 t2 : invoked (t1 ++ t2) = invoked t1 ++ invoked t2.
Proof. apply omap_app. Qed.

Lemma invoked_calls (hs : list handler) data :
  invoked ((fun h => Call (h_id h) data) <$> hs)
  = (fun h => (h_id h, data)) <$> hs.
Proof. induction hs as [|h hs IH]; simpl; [done|]. by f_equal. Qed.

Lemma emitted_calls (hs : list handler) data :
  emitted ((fun h => Call (h_id h) data) <$> hs) = [].
Proof. by induction hs. Qed.

Lemma emitted_run_calls hs data : emitted (snd (run_calls hs data)) = [].
Proof.
  induction hs as [|h hs IH]; simpl; [done|].
  destruct (h_run h data); [done|].
  by destruct (run_calls hs data).
Qed.

(** C2 (as amended).  When the handlers registered for an event are
    [pre ++ h :: post], every handler of [pre] returns on the payload and
    [h] raises [e], then [_emit] raises [e] to its caller, the handlers
    called are exactly those of [pre] and then [h], in registration order
    and each with the payload, and no handler of [post] is called. *)
Theorem emit_propagates_handler_exception
    (s : state) (event : str) (data : payload)
    (pre post : list handler) (h : handler) (e : exn) :
  handlers (cl s) !! event = Some (pre ++ h :: post) ->
  Forall (fun h' => h_run h' data = None) pre ->
  h_run h data = Some e ->
  exists t,
    _emit event data s = (inl e, record t s)
    /\ emitted t = [(event, data)]
    /\ invoked t = (fun h' => (h_id h', data)) <$> (pre ++ [h]).
Proof.
  intros Hl Hpre Hh. rewrite emit_eq. unfold subscribers. rewrite Hl. simpl.
  rewrite (run_calls_raise _ _ _ _ _ Hpre Hh). simpl.
  eexists. split; [done|]. split.
  - simpl. unfold emitted at 1. simpl. f_equal. apply emitted_calls.
  - simpl. unfold invoked at 1. simpl. apply invoked_calls.
Qed.

(** Without a handler that raises, all are called in registration order
    with the same payload and [_emit] returns. *)
Lemma emit_calls_all (s : state) (event : str) (data : payload) hs :
  handlers (cl s) !! event = Some hs ->
  Forall (fun h => h_run h data = None) hs ->
  exists t,
    _emit event data s = (inr tt, record t s)
    /\ invoked t = (fun h => (h_id h, data)) <$> hs.
Proof.
  intros Hl Hq. rewrite emit_eq. unfold subscribers. rewrite Hl. simpl.
  rewrite (run_calls_return _ _ Hq). simpl.
  eexists. split; [done|]. simpl. unfold invoked at 1. simpl.
  apply invoked_calls.
Qed.

(** ** Handling one message *)

Local Arguments _emit : simpl never.

Ltac munfold :=
  unfold mbind, M_bind, bind, ret, raise, lift, try, get_self, get_world,
    print, ws_send, ws_close, set_connected, set_entered,
    set_ping_task, set_ws, set_live_detail, set_sock_open, set_self,
    set_world, log, now.

(** One step of running a computation on a symbolic state: unfold the
    plumbing, replace an emission by its equation, or split on the next
    thing the run depends on. *)
Ltac mstep :=
  first
    [ progress munfold
    | rewrite emit_eq
    | progress (cbn [fst snd cl wd trace sock_open clock tick streamer_id ws
                     live_detail handlers _connected _entered _ping_task
                     record outcome negb packet_of])
    | match goal with
      | H : ?x = _ |- context [match ?x with _ => _ end] => rewrite H
      | H : ?x = _ |- context [if ?x then _ else _] => rewrite H
      | H : ?x = _ |- context [negb ?x] => rewrite H
      end
    | match goal with
      | |- context [match outcome ?o with _ => _ end] =>
          destruct o eqn:?
      | |- context [match ?x with inl _ => _ | inr _ => _ end] =>
          destruct x eqn:?
      | |- context [match ?x with Some _ => _ | None => _ end] =>
          destruct x eqn:?
      | |- context [if ?b then _ else _] => destruct b eqn:?
      end ].

Ltac mrun := repeat mstep.

(** Contradictions between two type codes, or two outcomes of parsing. *)
Ltac absurd_code :=
  exfalso;
  match goal with
  | H : lit _ = _ |- _ => by vm_compute in H
  | H : _ = lit _ |- _ => by vm_compute in H
  | H : _ <> _ |- _ => by apply H
  | H1 : ?x = inl _, H2 : ?x = inr _ |- _ => congruence
  end.

Ltac trace_eq :=
  first [ rewrite <- ?app_assoc; reflexivity | symmetry; apply app_nil_r ].


Lemma rejected_parse packet :
  ~ begins_with_starter packet \/ (length packet < 5)%nat ->
  exists e, _parse_message_type packet = inl e.
Proof.
  intros [H|H]; [eexists; by apply parse_rejects_prefix|].
  destruct (startswith packet STARTER) eqn:E.
  - eexists. apply parse_rejects_short; [|done].
    by apply begins_with_starter_spec.
  - eexists. apply parse_rejects_prefix.
    rewrite begins_with_starter_spec. congruence.
Qed.

Lemma emitted_cons_emit k d t : emitted (Emit k d :: t) = (k, d) :: emitted t.
Proof. reflexivity. Qed.

Lemma emitted_cons_other e t :
  (forall k d, e <> Emit k d) -> emitted (e :: t) = emitted t.
Proof. intros H. destruct e; try done. by destruct (H event data). Qed.

(** Rewrites the events of a trace made of emissions, handler calls and
    other effects. *)
Ltac events :=
  unfold kinds;
  repeat first
    [ rewrite emitted_app
    | rewrite emitted_cons_emit
    | rewrite emitted_run_calls
    | rewrite emitted_cons_other by done
    | rewrite app_nil_r
    | progress (cbn [emitted omap fmap list_fmap fst app]) ].

(** C3 (as amended).  For a text message that fails header parsing (it does
    not begin with STARTER, or has fewer than five characters), handling it
    emits the [raw] event carrying the message and no other event, changes
    no field of the client and leaves the socket as it was; the handler
    returns without raising provided no [raw] subscriber raises. *)
Theorem handle_rejected_frame (s : state) (packet : str) :
  ~ begins_with_starter packet \/ (length packet < 5)%nat ->
  let r := _handle_message (Text packet) s in
  cl (snd r) = cl s
  /\ sock_open (wd (snd r)) = sock_open (wd s)
  /\ (exists t, trace (wd (snd r)) = trace (wd s) ++ t
                /\ emitted t = [(SoopChatEvent.RAW, PStr packet)])
  /\ (quiet_on (cl s) SoopChatEvent.RAW (PStr packet) -> fst r = inr tt).
Proof.
  intros H. apply rejected_parse in H as [e He]. unfold quiet_on.
  unfold _handle_message. mrun; try absurd_code.
  - repeat split; [|congruence]. eexists. split; [done|]. by events.
  - repeat split. eexists. split; [by rewrite <- app_assoc|]. by events.
Qed.

(** C1 (as amended).  For every inbound text frame with type code
    [msg_type], provided no [raw] subscriber raises on it, the events of
    handling it are [raw] followed by: an event of the mapped kind for 0001
    connect, 0002 enter_chat_room, 0005 chat, 0018 text_donation, 0087
    ad_balloon_donation, 0104 notification, 0105 video_donation and 0109
    emoticon; for 0007, [disconnect] when the connected flag is set and
    nothing otherwise; for every type code outside the thirteen of the
    inbound table, [unknown] carrying the type code and the raw segments.
    (0004, 0012, 0093 and 0127 are not covered.) *)
Theorem handle_frame_kind (s : state) (packet msg_type : str) :
  _parse_message_type packet = inr msg_type ->
  quiet_on (cl s) SoopChatEvent.RAW (PStr packet) ->
  exists t,
    trace (wd (snd (_handle_message (Text packet) s))) = trace (wd s) ++ t
    /\ (forall kind, (msg_type, kind) ∈ decoded_kinds ->
        kinds t = [lit "raw"; kind])
    /\ (msg_type = lit "0007" ->
        kinds t = if _connected (cl s) then [lit "raw"; lit "disconnect"]
                  else [lit "raw"])
    /\ (msg_type ∉ (fst <$> inbound_table) ->
        emitted t
        = [(lit "raw", PStr packet);
           (lit "unknown",
            unknown_payload msg_type packet (clock (wd s) (tick (wd s))))]).
Proof.
  intros Hp Hq. unfold quiet_on in Hq.
  unfold _handle_message, disconnect. mrun; try absurd_code.
  all: eexists; (split; [rewrite <- ?app_assoc; reflexivity|]).
  all: split; [intros kind Hin; unfold decoded_kinds in Hin;
               repeat (apply elem_of_cons in Hin as [Hin|Hin];
                       [injection Hin as -> ->; try absurd_code|]);
               try (by apply not_elem_of_nil in Hin)|].
  all: try (by events).
  all: split; [intros ->; try absurd_code|].
  all: try (by events).
  all: intros Hnot.
  all: try (exfalso; apply Hnot; subst msg_type; cbn;
            by repeat first [apply list_elem_of_here
                            | apply list_elem_of_further]).
  all: try (by events).
Qed.

(** ** What handling a message can do, whatever the subscribers do *)



Lemma handle_message_table data s :
  handlers (cl (snd (_handle_message data s))) = handlers (cl s)
  /\ streamer_id (cl (snd (_handle_message data s))) = streamer_id (cl s)
  /\ live_detail (cl (snd (_handle_message data s))) = live_detail (cl s).
Proof. unfold _handle_message, disconnect. by mrun. Qed.

(** Only the branch for type 0001 sets the connected flag. *)
Lemma handle_message_flag data s :
  _connected (cl s) = false ->
  _connected (cl (snd (_handle_message data s))) = true ->
  exists packet, packet_of data = inr packet
                 /\ _parse_message_type packet = inr (lit "0001").
Proof.
  intros Hc. unfold _handle_message, disconnect. mrun; try absurd_code.
  all: try congruence.
  all: intros _; eexists; (split; [first [eassumption | reflexivity]|]); by subst.
Qed.

(** The events of one message: none when the message cannot be decoded as
    text, else [raw] with the packet, followed by at most one event, of
    another kind. *)
Lemma handle_message_events data s :
  exists t,
    trace (wd (snd (_handle_message data s))) = trace (wd s) ++ t
    /\ (emitted t = []
        \/ exists packet,
             packet_of data = inr packet
             /\ (emitted t = [(lit "raw", PStr packet)]
                 \/ exists kind payload,
                      kind <> lit "raw"
                      /\ emitted t = [(lit "raw", PStr packet);
                                      (kind, payload)])).
Proof.
  unfold _handle_message, disconnect. mrun; try absurd_code.
  all: eexists; (split; [trace_eq|]).
  all: events.
  all: try (by left).
  all: right; eexists; (split; [first [eassumption | reflexivity]|]).
  all: try (by left).
  all: right; eexists _, _; (split; [|reflexivity]); by vm_compute.
Qed.

(** ** Disconnecting *)

Lemma quiet_table c c' : handlers c' = handlers c -> quiet c -> quiet c'.
Proof.
  intros Hh Hq event data. unfold quiet_on, subscribers. rewrite Hh.
  apply Hq.
Qed.

Lemma quiet_calls c c' event data :
  quiet c -> handlers c' = handlers c ->
  (run_calls (subscribers c' event) data).1 = None.
Proof. intros Hq Hh. by apply (quiet_table c c'). Qed.

(** A subscriber cannot have raised when the table is quiet. *)
Ltac absurd_quiet Hq :=
  exfalso;
  match goal with
  | H : (run_calls (subscribers _ _) _).1 = Some _ |- _ =>
      rewrite (quiet_calls _ _ _ _ Hq) in H by reflexivity; discriminate H
  end.

Lemma run_calls_only_calls hs data e :
  e ∈ (run_calls hs data).2 -> exists h, e = Call h data.
Proof.
  induction hs as [|h hs IH]; simpl.
  - intros H. by apply not_elem_of_nil in H.
  - destruct (h_run h data).
    + intros H%list_elem_of_singleton. eauto.
    + destruct (run_calls hs data) as [o t]. simpl in *.
      intros [->|H]%elem_of_cons; eauto.
Qed.

(** Whether an effect other than a call or an emission occurs in a trace
    that is written out. *)
Ltac occurs :=
  rewrite ?elem_of_app, ?elem_of_cons, ?list_elem_of_singleton;
  split;
  [ intros Hocc;
    first
      [ by eexists
      | exfalso;
        repeat match goal with
               | H : _ \/ _ |- _ => destruct H
               | H : _ ∈ (run_calls _ _).2 |- _ =>
                   apply run_calls_only_calls in H as [? ?]
               | H : _ ∈ [] |- _ => by apply not_elem_of_nil in H
               end; done ]
  | intros Hsome;
    first [ by destruct Hsome | auto 10 ] ].

Lemma disconnect_idle s : _connected (cl s) = false -> disconnect s = (inr tt, s).
Proof. intros H. unfold disconnect. mrun. by destruct s. Qed.

Lemma disconnect_connected s :
  _connected (cl s) = true -> quiet (cl s) ->
  exists s' t,
    disconnect s = (inr tt, s')
    /\ trace (wd s') = trace (wd s) ++ t
    /\ emitted t
       = [(lit "disconnect",
           PDict [(lit "streamer_id", VStr (streamer_id (cl s)));
                  (lit "time", VStr (clock (wd s) (tick (wd s))))])]
    /\ (TaskCancel ∈ t <-> is_Some (_ping_task (cl s)))
    /\ (WsClose ∈ t <-> is_Some (ws (cl s)))
    /\ (is_Some (ws (cl s)) -> sock_open (wd s') = false)
    /\ _connected (cl s') = false
    /\ ws (cl s') = None
    /\ _ping_task (cl s') = None
    /\ handlers (cl s') = handlers (cl s).
Proof.
  intros Hc Hq. unfold disconnect. mrun; try absurd_quiet Hq.
  all: eexists _, _; (split; [reflexivity|]); cbn [cl wd trace sock_open].
  all: (split; [trace_eq|]).
  all: (split; [by events|]).
  all: (split; [occurs|]).
  all: (split; [occurs|]).
  all: repeat split; try done.
  all: by intros [].
Qed.

(** Handling the acknowledgement (type 0001) sets the connected flag and
    nothing else of the client, even when the JOIN that follows cannot be
    sent. *)
Lemma handle_ack_client s packet :
  _parse_message_type packet = inr (lit "0001") ->
  quiet_on (cl s) SoopChatEvent.RAW (PStr packet) ->
  cl (snd (_handle_message (Text packet) s))
  = {| streamer_id := streamer_id (cl s); ws := ws (cl s);
       live_detail := live_detail (cl s); handlers := handlers (cl s);
       _connected := true; _entered := _entered (cl s);
       _ping_task := _ping_task (cl s) |}.
Proof.
  intros Hp Hq. unfold quiet_on in Hq.
  unfold _handle_message, disconnect. mrun; try absurd_code; done.
Qed.


(** ** One frame of a session whose subscribers do not raise *)

Lemma kinds_app t1 t2 : kinds (t1 ++ t2) = kinds t1 ++ kinds t2.
Proof. unfold kinds. by rewrite emitted_app, fmap_app. Qed.

Ltac absurd_quiet_table Hq Hh :=
  exfalso;
  match goal with
  | H : (run_calls (subscribers _ _) _).1 = Some _ |- _ =>
      rewrite (quiet_calls _ _ _ _ Hq) in H by (exact Hh); discriminate H
  end.

Lemma frame_ack c0 d bs s packet :
  quiet c0 -> ready c0 d s ->
  encode_utf8 (chat_no d) = Some bs ->
  _parse_message_type packet = inr (lit "0001") ->
  exists s' t,
    _handle_message (Text packet) s = (inr tt, s')
    /\ ready c0 d s'
    /\ _connected (cl s') = true
    /\ trace (wd s') = trace (wd s) ++ t
    /\ kinds t = [lit "raw"; lit "connect"].
Proof.
  intros Hq (Hh & Hs & Hd & [w Hw] & Ho) Hbs Hp.
  assert (Hj : exists join,
             _get_packet ChatType.ENTER_CHAT_ROOM (join_payload (chat_no d))
             = inr join).
  { eexists. apply get_packet_eq.
    apply (encode_utf8_app [FF]); [done|]. by apply encode_utf8_app. }
  destruct Hj as [join Hj].
  unfold _handle_message, disconnect, _get_join_packet.
  mrun; try absurd_code; try absurd_quiet_table Hq Hh.
  eexists _, _. split; [reflexivity|]. unfold ready.
  cbn [cl wd trace sock_open handlers streamer_id live_detail ws _connected].
  rewrite ?Hw. repeat split; try done; [trace_eq | by events].
Qed.

Lemma frame_decoded c0 d s packet msg_type kind :
  quiet c0 -> ready c0 d s ->
  _parse_message_type packet = inr msg_type ->
  (msg_type, kind) ∈ decoded_kinds ->
  msg_type <> lit "0001" ->
  exists s' t,
    _handle_message (Text packet) s = (inr tt, s')
    /\ ready c0 d s'
    /\ _connected (cl s') = _connected (cl s)
    /\ trace (wd s') = trace (wd s) ++ t
    /\ kinds t = [lit "raw"; kind].
Proof.
  intros Hq (Hh & Hs & Hd & [w Hw] & Ho) Hp Hin Hne.
  unfold decoded_kinds in Hin.
  repeat (apply elem_of_cons in Hin as [Hin|Hin];
          [injection Hin as -> ->|]);
    try (by apply not_elem_of_nil in Hin); try done.
  all: unfold _handle_message, disconnect;
       mrun; try absurd_code; try absurd_quiet_table Hq Hh.
  all: rewrite ?(quiet_calls _ _ _ _ Hq) by exact Hh; cbn [outcome].
  all: eexists _, _; (split; [reflexivity|]); unfold ready;
       cbn [cl wd trace sock_open handlers streamer_id live_detail ws
            _connected record];
       rewrite ?Hw; repeat split; try done; [trace_eq | by events].
Qed.

Lemma frame_disconnect c0 d s packet :
  quiet c0 -> ready c0 d s ->
  _connected (cl s) = true ->
  _parse_message_type packet = inr (lit "0007") ->
  exists s' t,
    _handle_message (Text packet) s = (inr tt, s')
    /\ _connected (cl s') = false
    /\ trace (wd s') = trace (wd s) ++ t
    /\ kinds t = [lit "raw"; lit "disconnect"].
Proof.
  intros Hq (Hh & Hs & Hd & [w Hw] & Ho) Hc Hp.
  unfold _handle_message, disconnect.
  mrun; try absurd_code; try absurd_quiet_table Hq Hh.
  all: eexists _, _; (split; [reflexivity|]);
       cbn [cl wd trace _connected];
       repeat split; [trace_eq | by events].
Qed.

Lemma receive_cons message rest s s' :
  _handle_message message s = (inr tt, s') ->
  receive (message :: rest) s = receive rest s'.
Proof. intros H. cbn [receive]. unfold mbind, M_bind, bind. by rewrite H. Qed.

(** ** A run of [connect()] *)




Section Connect.

Variable unicode_lower : str -> str.

Lemma make_chat_url_eq self d :
  live_detail self = Some d ->
  _make_chat_url unicode_lower self
  = inr (chat_url_of (lower unicode_lower (chat_domain d))
                     (str_of_Z (chat_port d + 1)) (streamer_id self)).
Proof. intros H. unfold _make_chat_url. by rewrite H. Qed.


(** A live room whose handshake succeeds: the run is the reading loop
    started from [joined_state]. *)
Lemma connect_live env s d :
  _connected (cl s) = false ->
  resolved env = inr d ->
  result d <> 0%Z ->
  handshake env = None ->
  connect unicode_lower env s
  = reading_loop env
      (joined_state s d
         (chat_url_of (lower unicode_lower (chat_domain d))
                      (str_of_Z (chat_port d + 1)) (streamer_id (cl s)))).
Proof.
  intros Hc Hr Hres Hh.
  apply Z.eqb_neq in Hres.
  unfold connect, _get_live_detail, _make_chat_url.
  fold (reading_loop env).
  change _get_connect_packet
    with (@inr exn str (STARTER ++ lit "0001" ++ lit "000006" ++ lit "00"
                        ++ connect_payload)).
  mrun. unfold joined_state, resolve_request, chat_url_of.
  rewrite ?Hc, <- !app_assoc. reflexivity.
Qed.


End Connect.

(** ** Where the connected flag can come from *)

Lemma receive_flag messages s :
  _connected (cl s) = false ->
  _connected (cl (snd (receive messages s))) = true ->
  exists data packet,
    data ∈ messages /\ packet_of data = inr packet
    /\ _parse_message_type packet = inr (lit "0001").
Proof.
  revert s; induction messages as [|m r IH]; intros s Hc; cbn [receive].
  - unfold ret. cbn [snd]. congruence.
  - unfold mbind, M_bind, bind.
    destruct (_connected (cl (snd (_handle_message m s)))) eqn:Hm.
    + intros _. destruct (handle_message_flag m s Hc Hm) as (p & Hp & Ht).
      exists m, p. split; [apply list_elem_of_here | done].
    + destruct (_handle_message m s) as [[e|[]] s1]; cbn [snd] in *.
      * congruence.
      * intros H. destruct (IH s1 Hm H) as (data & p & Hin & Hp & Ht).
        exists data, p. split; [by apply list_elem_of_further | done].
Qed.

Lemma disconnect_flag s :
  _connected (cl (snd (disconnect s))) = true -> _connected (cl s) = true.
Proof.
  destruct (_connected (cl s)) eqn:Hc; [done|].
  rewrite (disconnect_idle s Hc). cbn [snd]. congruence.
Qed.

Lemma reading_loop_flag env s :
  _connected (cl s) = false ->
  _connected (cl (snd (reading_loop env s))) = true ->
  exists data packet,
    data ∈ inbound env /\ packet_of data = inr packet
    /\ _parse_message_type packet = inr (lit "0001").
Proof.
  intros Hc. unfold reading_loop, except_closed, mbind, M_bind, bind.
  pose proof (receive_flag (inbound env) s Hc) as Hr.
  destruct (receive (inbound env) s) as [[e|[]] s1]; cbn [snd] in *.
  - destruct e; try done. intros H%disconnect_flag. auto.
  - change (set_sock_open false s1) with (@inr exn unit tt, hung_up s1).
    cbv beta iota.
    destruct (ends_closed_error env); unfold raise, ret; [|exact Hr].
    intros H%disconnect_flag. auto.
Qed.

Lemma connect_flag unicode_lower env s :
  _connected (cl s) = false ->
  _connected (cl (snd (connect unicode_lower env s))) = true ->
  exists data packet,
    data ∈ inbound env /\ packet_of data = inr packet
    /\ _parse_message_type packet = inr (lit "0001").
Proof.
  intros Hc. unfold connect, _get_live_detail, _make_chat_url.
  fold (reading_loop env). mrun; try congruence.
  all: by apply reading_loop_flag.
Qed.

(** ** Claims about a run of [connect()] *)

Section Claims.

Variable unicode_lower : str -> str.

(** C7.  On a client with a resolved descriptor, the WebSocket URL is
    ["wss://"], the chat host lowercased, [":"], the decimal text of the
    chat port plus one, ["/Websocket/"] and the room id the client was
    made for; chat host [Chat-X] with port 5000 gives
    [wss://chat-x:5001/Websocket/<room_id>]. *)
Theorem make_chat_url_layout (self : client) (d : LiveDetail) (room_id : str) :
  live_detail self = Some d ->
  streamer_id self = room_id ->
  (exists port_text,
      Z_of_str port_text = Some (chat_port d + 1)%Z
      /\ _make_chat_url unicode_lower self
         = inr (lit "wss://" ++ lower unicode_lower (chat_domain d)
                ++ lit ":" ++ port_text ++ lit "/Websocket/" ++ room_id))
  /\ (chat_domain d = lit "Chat-X" -> chat_port d = 5000%Z ->
      _make_chat_url unicode_lower self
      = inr (lit "wss://chat-x:5001/Websocket/" ++ room_id)).
Proof.
  intros Hd <-. rewrite (make_chat_url_eq _ _ _ Hd). split.
  - exists (str_of_Z (chat_port d + 1)).
    split; [apply Z_of_str_str_of_Z | reflexivity].
  - intros -> ->. reflexivity.
Qed.


(** C9.  Handling any message emits [raw] with the packet before the one
    event of a decoded kind it may emit; and a run of [connect()] on a
    live room, with subscribers that do not raise and a room number that
    can be encoded, fed exactly four frames of types 0001, 0002, 0005 and
    0007, emits raw, connect, raw, enter_chat_room, raw, chat, raw,
    disconnect in that order, [disconnect] once, however the socket
    iteration ends. *)
Theorem raw_first_and_session_order :
  (forall data s,
      exists t,
        trace (wd (snd (_handle_message data s))) = trace (wd s) ++ t
        /\ (emitted t = []
            \/ exists packet,
                 packet_of data = inr packet
                 /\ (emitted t = [(lit "raw", PStr packet)]
                     \/ exists kind payload,
                          kind <> lit "raw"
                          /\ emitted t = [(lit "raw", PStr packet);
                                          (kind, payload)])))
  /\ (forall env s d bs p1 p2 p3 p4,
        _connected (cl s) = false ->
        quiet (cl s) ->
        resolved env = inr d ->
        result d <> 0%Z ->
        encode_utf8 (chat_no d) = Some bs ->
        handshake env = None ->
        inbound env = [Text p1; Text p2; Text p3; Text p4] ->
        _parse_message_type p1 = inr (lit "0001") ->
        _parse_message_type p2 = inr (lit "0002") ->
        _parse_message_type p3 = inr (lit "0005") ->
        _parse_message_type p4 = inr (lit "0007") ->
        exists t,
          fst (connect unicode_lower env s) = inr tt
          /\ trace (wd (snd (connect unicode_lower env s)))
             = trace (wd s) ++ t
          /\ kinds t = [lit "raw"; lit "connect";
                        lit "raw"; lit "enter_chat_room";
                        lit "raw"; lit "chat";
                        lit "raw"; lit "disconnect"]
          /\ length (filter (fun k => k = lit "disconnect") (kinds t))
             = 1%nat).
Proof.
  split; [apply handle_message_events|].
  intros env s d bs p1 p2 p3 p4 Hc Hq Hr Hres Hbs Hh Hin H1 H2 H3 H4.
  rewrite (connect_live _ _ _ _ Hc Hr Hres Hh).
  set (s0 := joined_state s d _).
  assert (Hready : ready (cl s) d s0) by (by repeat split).
  destruct (frame_ack _ _ _ _ _ Hq Hready Hbs H1)
    as (s1 & t1 & E1 & R1 & C1 & T1 & K1).
  destruct (frame_decoded _ _ _ _ _ (lit "enter_chat_room") Hq R1 H2)
    as (s2 & t2 & E2 & R2 & C2 & T2 & K2);
    [do 1 apply list_elem_of_further; apply list_elem_of_here | done |].
  destruct (frame_decoded _ _ _ _ _ (lit "chat") Hq R2 H3)
    as (s3 & t3 & E3 & R3 & C3 & T3 & K3);
    [do 2 apply list_elem_of_further; apply list_elem_of_here | done |].
  destruct (frame_disconnect _ _ _ _ Hq R3 ltac:(congruence) H4)
    as (s4 & t4 & E4 & C4 & T4 & K4).
  assert (Hloop : reading_loop env s0 = (inr tt, hung_up s4)).
  { unfold reading_loop, except_closed, mbind, M_bind, bind. rewrite Hin.
    rewrite (receive_cons _ _ _ _ E1), (receive_cons _ _ _ _ E2),
      (receive_cons _ _ _ _ E3), (receive_cons _ _ _ _ E4).
    cbn [receive]. unfold ret, raise.
    change (set_sock_open false s4) with (@inr exn unit tt, hung_up s4).
    cbv beta iota.
    destruct (ends_closed_error env); [|done].
    by apply disconnect_idle. }
  rewrite Hloop. cbn [fst snd hung_up wd trace].
  assert (Hk : kinds (drop (length (trace (wd s))) (trace (wd s0)) ++ t1
                      ++ t2 ++ t3 ++ t4)
               = [lit "raw"; lit "connect"; lit "raw"; lit "enter_chat_room";
                  lit "raw"; lit "chat"; lit "raw"; lit "disconnect"]).
  { unfold s0, joined_state. cbn [wd trace].
    rewrite drop_app_length, !kinds_app, K1, K2, K3, K4. reflexivity. }
  eexists. split; [done|]. split; [|split; [exact Hk|by rewrite Hk]].
  rewrite T4, T3, T2, T1. unfold s0, joined_state. cbn [wd trace].
  rewrite drop_app_length, <- !app_assoc. reflexivity.
Qed.

End Claims.

(** C10.  On a client whose connected flag is false, [disconnect()] returns
    at once: no event, no effect on the keepalive task or the socket, no
    field changed.  From such a client subscribing and emitting leave the
    flag alone, and only handling a frame of type 0001, directly or in a
    run of [connect()], sets it; once one has been handled, [disconnect()]
    emits the [disconnect] event, cancels the keepalive task and closes the
    socket where there are any, and resets the fields. *)
Theorem disconnect_needs_ack (s : state) :
  _connected (cl s) = false ->
  disconnect s = (inr tt, s)
  /\ (forall event h, _connected (on event h (cl s)) = false)
  /\ (forall event data, cl (snd (_emit event data s)) = cl s)
  /\ (forall unicode_lower env,
        _connected (cl (snd (connect unicode_lower env s))) = true ->
        exists data packet,
          data ∈ inbound env /\ packet_of data = inr packet
          /\ _parse_message_type packet = inr (lit "0001"))
  /\ (forall data,
        _connected (cl (snd (_handle_message data s))) = true ->
        exists packet, packet_of data = inr packet
                       /\ _parse_message_type packet = inr (lit "0001"))
  /\ (forall packet,
        _parse_message_type packet = inr (lit "0001") ->
        quiet (cl s) ->
        let s1 := snd (_handle_message (Text packet) s) in
        _connected (cl s1) = true
        /\ exists s2 t,
             disconnect s1 = (inr tt, s2)
             /\ trace (wd s2) = trace (wd s1) ++ t
             /\ kinds t = [lit "disconnect"]
             /\ (TaskCancel ∈ t <-> is_Some (_ping_task (cl s)))
             /\ (WsClose ∈ t <-> is_Some (ws (cl s)))
             /\ _connected (cl s2) = false
             /\ ws (cl s2) = None
             /\ _ping_task (cl s2) = None).
Proof.
  intros Hc. split; [by apply disconnect_idle|].
  split; [done|].
  split; [intros event data; by rewrite emit_eq|].
  split; [intros unicode_lower env; by apply connect_flag|].
  split; [intros data; by apply handle_message_flag|].
  intros packet Hp Hq s1.
  pose proof (handle_ack_client s packet Hp (Hq _ _)) as Hcl.
  fold s1 in Hcl.
  assert (Hc1 : _connected (cl s1) = true) by (by rewrite Hcl).
  split; [done|].
  assert (Hq1 : quiet (cl s1)).
  { apply (quiet_table (cl s)); [by rewrite Hcl | done]. }
  destruct (disconnect_connected s1 Hc1 Hq1)
    as (s2 & t & E & Ht & He & Hk & Hw & _ & Hf & Hws & Hp' & _).
  exists s2, t. rewrite Hcl in Hk, Hw. cbn in Hk, Hw.
  repeat split; try done; try tauto.
  unfold kinds. by rewrite He.
Qed.

(** ** Subscribing *)

(** [on] appends the handler to the list of its event and leaves the other
    events alone. *)
Lemma subscribers_on event h c event' :
  subscribers (on event h c) event'
  = if decide (event = event') then subscribers c event ++ [h]
    else subscribers c event'.
Proof.
  unfold subscribers, on. cbn [handlers].
  destruct (handlers c !! event) as [hs|] eqn:E.
  - rewrite E. cbn [default]. rewrite lookup_insert.
    destruct (decide (event = event')); [done|]. reflexivity.
  - rewrite lookup_insert_eq. cbn [default]. rewrite lookup_insert.
    destruct (decide (event = event')) as [|Hne]; [done|].
    rewrite lookup_insert_ne by done. reflexivity.
Qed.

Lemma run_calls_app_quiet hs1 hs2 data :
  (run_calls hs1 data).1 = None ->
  (run_calls (hs1 ++ hs2) data).1 = (run_calls hs2 data).1.
Proof.
  induction hs1 as [|h hs IH]; simpl; [done|].
  destruct (h_run h data); [done|].
  destruct (run_calls hs data) as [o t] eqn:E1.
  destruct (run_calls (hs ++ hs2) data) as [o' t'] eqn:E2.
  simpl in *. auto.
Qed.

Lemma quiet_init sid : quiet (__init__ sid).
Proof. intros event data. unfold quiet_on, subscribers. simpl. by rewrite lookup_empty. Qed.

Lemma quiet_on_register event h c :
  (forall data, h_run h data = None) -> quiet c -> quiet (on event h c).
Proof.
  intros Hh Hq event' data. unfold quiet_on. rewrite subscribers_on.
  destruct (decide (event = event')); [|apply Hq].
  rewrite run_calls_app_quiet by apply Hq. simpl. by rewrite Hh.
Qed.

Lemma quiet_watched_client : quiet watched_client.
Proof.
  unfold watched_client, bare_client.
  repeat apply quiet_on_register; try done; apply quiet_init.
Qed.

(** ** The claims at the scenarios *)

(** C1 as stated fails: a frame of type 0004 is emitted as [unknown], not
    as [exit]; and a frame of type 0007 that arrives before any
    acknowledgement emits nothing after [raw]. *)
Lemma exit_frame_emits_unknown :
  let s := start bare_client counting_clock in
  kinds (trace (wd (snd (_handle_message (Text (frame "0004" [])) s))))
  = [lit "raw"; lit "unknown"]
  /\ kinds (trace (wd (snd (_handle_message (Text (frame "0007" [])) s))))
     = [lit "raw"].
Proof. split; reflexivity. Qed.

(** The amended C1 at the chat frame of the decode scenario. *)
Lemma handle_frame_kind_witness :
  let s := start bare_client counting_clock in
  _parse_message_type chat_frame = inr (lit "0005")
  /\ exists t,
       trace (wd (snd (_handle_message (Text chat_frame) s)))
       = trace (wd s) ++ t
       /\ kinds t = [lit "raw"; lit "chat"].
Proof.
  intros s. split; [reflexivity|].
  destruct (handle_frame_kind s chat_frame (lit "0005") eq_refl eq_refl)
    as (t & Ht & Hk & _).
  exists t. split; [exact Ht|]. apply Hk.
  do 2 apply list_elem_of_further. apply list_elem_of_here.
Defined.

(** The frames the handler has no branch for: 0004, 0012, 0093 and 0127
    all come out as [unknown]. *)
Lemma unwired_codes_emit_unknown :
  Forall (fun code =>
            kinds (trace (wd (snd (_handle_message
                                     (Text (frame code []))
                                     (start bare_client counting_clock)))))
            = [lit "raw"; lit "unknown"])
         ["0004"; "0012"; "0093"; "0127"]%string.
Proof. repeat constructor. Qed.

(** C2 as stated fails: with two [chat] subscribers of which the first
    raises, the exception leaves [_emit] and the second is never called. *)
Lemma faulty_subscriber_stops_dispatch :
  let s := start faulty_client counting_clock in
  let r := _emit (lit "chat") (PStr (lit "hi")) s in
  subscribers faulty_client (lit "chat") = [faulty 1; recorder 2]
  /\ fst r = inl (OtherError 1)
  /\ invoked (trace (wd (snd r))) = [(1%nat, PStr (lit "hi"))].
Proof. repeat split; reflexivity. Qed.

(** The amended C2 at the same client. *)
Lemma emit_propagates_handler_exception_witness :
  let s := start faulty_client counting_clock in
  exists t,
    _emit (lit "chat") (PStr (lit "hi")) s = (inl (OtherError 1), record t s)
    /\ emitted t = [(lit "chat", PStr (lit "hi"))]
    /\ invoked t = [(1%nat, PStr (lit "hi"))].
Proof.
  intros s.
  exact (emit_propagates_handler_exception s (lit "chat") (PStr (lit "hi"))
           [] [recorder 2] (faulty 1) (OtherError 1)
           eq_refl (Forall_nil_2 _) eq_refl).
Defined.

(** C3 as stated fails: a message without the start marker is still
    emitted as [raw]. *)
Lemma rejected_frame_emits_raw :
  let s := start bare_client counting_clock in
  ~ begins_with_starter (lit "hello")
  /\ emitted (trace (wd (snd (_handle_message (Text (lit "hello")) s))))
     = [(lit "raw", PStr (lit "hello"))].
Proof.
  intros s. split; [|reflexivity]. intros (rest & E). discriminate E.
Qed.

(** The amended C3 at the same message. *)
Lemma handle_rejected_frame_witness :
  let s := start bare_client counting_clock in
  let r := _handle_message (Text (lit "hello")) s in
  cl (snd r) = cl s
  /\ (exists t, trace (wd (snd r)) = trace (wd s) ++ t
                /\ emitted t = [(lit "raw", PStr (lit "hello"))])
  /\ fst r = inr tt.
Proof.
  intros s r.
  assert (H : ~ begins_with_starter (lit "hello")
              \/ (length (lit "hello") < 5)%nat).
  { left. intros (rest & E). discriminate E. }
  destruct (handle_rejected_frame s (lit "hello") H) as (Hc & _ & Ht & Hr).
  split; [exact Hc|]. split; [exact Ht|]. apply Hr. reflexivity.
Defined.

(** C5 at room number 99 and at a room number that is one Hangul
    syllable, three bytes for one character: the JOIN length fields are
    000008 and 000009. *)
Lemma recipes_round_trip_witness :
  _get_connect_packet
  = inr (STARTER ++ lit "0001" ++ lit "000006" ++ lit "00"
         ++ [FF; FF; FF] ++ lit "16" ++ [FF])
  /\ _get_join_packet resolved_client
     = inr (STARTER ++ lit "0002" ++ lit "000008" ++ lit "00"
            ++ [FF] ++ lit "99" ++ [FF; FF; FF; FF; FF])
  /\ _get_join_packet hangul_client
     = inr (STARTER ++ lit "0002" ++ lit "000009" ++ lit "00"
            ++ [FF] ++ [48169] ++ [FF; FF; FF; FF; FF])
  /\ _get_ping_packet
     = inr (STARTER ++ lit "0000" ++ lit "000001" ++ lit "00" ++ [FF]).
Proof.
  destruct (recipes_round_trip resolved_client happy_detail [57; 57]
              eq_refl eq_refl)
    as ((pc & Ec & _ & _ & fc & -> & _ & Hc)
        & (pj & Ej & _ & _ & fj & -> & _ & Hj)
        & (pp & Ep & _ & _ & fp & -> & _ & Hp)).
  destruct (recipes_round_trip hangul_client hangul_detail [235; 176; 169]
              eq_refl eq_refl)
    as (_ & (pk & Ek & _ & _ & fk & -> & _ & Hk) & _).
  rewrite Ec, Ej, Ek, Ep, (Hc eq_refl), (Hj eq_refl), (Hk eq_refl),
    (Hp eq_refl).
  repeat split.
Defined.

(** C7 at the happy path. *)
Lemma make_chat_url_layout_witness :
  _make_chat_url (fun host => host) resolved_client
  = inr (lit "wss://chat-x:5001/Websocket/room").
Proof.
  destruct (make_chat_url_layout (fun host => host) resolved_client
              happy_detail (lit "room") eq_refl eq_refl) as [_ H].
  exact (H eq_refl eq_refl).
Defined.


(** C9 at the scripted session, with three recording subscribers. *)
Lemma raw_first_and_session_order_witness :
  let s := start watched_client counting_clock in
  exists t,
    fst (connect (fun host => host) scripted_session s) = inr tt
    /\ trace (wd (snd (connect (fun host => host) scripted_session s)))
       = trace (wd s) ++ t
    /\ kinds t = [lit "raw"; lit "connect"; lit "raw"; lit "enter_chat_room";
                  lit "raw"; lit "chat"; lit "raw"; lit "disconnect"]
    /\ length (filter (fun k => k = lit "disconnect") (kinds t)) = 1%nat.
Proof.
  intros s.
  destruct (raw_first_and_session_order (fun host => host)) as [_ H].
  exact (H scripted_session s happy_detail [57; 57] _ _ _ _
           eq_refl quiet_watched_client eq_refl ltac:(discriminate)
           eq_refl eq_refl eq_refl eq_refl eq_refl eq_refl eq_refl).
Defined.

(** C10 at a client that was never acknowledged. *)
Lemma disconnect_needs_ack_witness :
  let s := start watched_client counting_clock in
  _connected (cl s) = false
  /\ disconnect s = (inr tt, s)
  /\ _connected (cl (snd (_handle_message (Text (frame "0001" [])) s))) = true.
Proof.
  intros s.
  destruct (disconnect_needs_ack s eq_refl) as (Hidle & _ & _ & _ & _ & Hack).
  split; [reflexivity|]. split; [exact Hidle|].
  destruct (Hack (frame "0001" []) eq_refl quiet_watched_client) as [H _].
  exact H.
Defined.

(** ** More on the frame codec *)

Lemma split_nonempty sep s : split sep s <> [].
Proof.
  destruct s as [|c r]; simpl; [done|].
  destruct (N.eqb c sep); [done|]. by destruct (split sep r).
Qed.

Lemma split_no_sep sep s : sep ∉ s -> split sep s = [s].
Proof.
  induction s as [|c r IH]; intros H; simpl; [done|].
  apply not_elem_of_cons in H as [Hc Hr].
  destruct (N.eqb_spec c sep) as [->|_]; [done|]. by rewrite IH.
Qed.

Lemma split_segment sep s rest :
  sep ∉ s -> split sep (s ++ sep :: rest) = s :: split sep rest.
Proof.
  induction s as [|c r IH]; intros H; simpl.
  - by rewrite N.eqb_refl.
  - apply not_elem_of_cons in H as [Hc Hr].
    destruct (N.eqb_spec c sep) as [->|_]; [done|]. by rewrite IH.
Qed.

(** Splitting what was joined gives the segments back. *)
Lemma split_join sep segs :
  segs <> [] -> Forall (fun s => sep ∉ s) segs ->
  split sep (join_with sep segs) = segs.
Proof.
  intros Hne H. induction H as [|s rest Hs Hrest IH]; [done|].
  cbn [join_with]. destruct rest as [|s' rest'].
  - by apply split_no_sep.
  - rewrite split_segment by done. f_equal. by apply IH.
Qed.

Lemma join_with_cons sep s rest :
  rest <> [] -> join_with sep (s :: rest) = s ++ sep :: join_with sep rest.
Proof. by destruct rest. Qed.

(** Joining what was split gives the text back, whatever the text. *)
Lemma join_split sep s : join_with sep (split sep s) = s.
Proof.
  induction s as [|c r IH]; [done|]. cbn [split].
  pose proof (split_nonempty sep r) as Hn.
  destruct (N.eqb_spec c sep) as [->|Hne].
  - rewrite join_with_cons by done. by rewrite IH.
  - destruct (split sep r) as [|p ps] eqn:E; [done|].
    destruct ps as [|q qs].
    + cbn [join_with] in *. by rewrite IH.
    + rewrite join_with_cons by done.
      rewrite join_with_cons in IH by done. by rewrite <- IH.
Qed.

Lemma part_seg parts i : part parts i = seg parts i.
Proof.
  unfold part, seg. destruct (decide (i < length parts)%nat) as [H|H]; [done|].
  assert (Hge : (length parts <= i)%nat) by (apply Nat.nlt_ge; exact H).
  unfold str in *. by rewrite (lookup_ge_None_2 parts i Hge).
Qed.

(** X1.  For a packet made of segments joined by SEP, every parser returns
    the segments at its own positions, and the empty text for a position
    the packet does not have. *)
Theorem parsers_read_segments (segs : list str) :
  segs <> [] ->
  Forall (fun s => FF ∉ s) segs ->
  let packet := join_with FF segs in
  _parse_connect packet
  = [(lit "username", VStr (seg segs 1)); (lit "syn", VStr (seg segs 2))]
  /\ _parse_enter_chat_room packet
     = [(lit "streamer_id", VStr (seg segs 2));
        (lit "syn_ack", VStr (seg segs 7))]
  /\ _parse_chat packet
     = [(lit "comment", VStr (seg segs 1));
        (lit "user_id", VStr (seg segs 2));
        (lit "username", VStr (seg segs 6))]
  /\ _parse_notification packet
     = [(lit "notification", VStr (seg segs 4))]
  /\ _parse_donation packet
     = [(lit "to", VStr (seg segs 2)); (lit "from", VStr (seg segs 3));
        (lit "from_username", VStr (seg segs 4));
        (lit "amount", VStr (seg segs 5))]
  /\ _parse_emoticon packet
     = [(lit "emoticon_id", VStr (seg segs 3));
        (lit "user_id", VStr (seg segs 6));
        (lit "username", VStr (seg segs 7))].
Proof.
  intros Hne Hs packet.
  unfold _parse_connect, _parse_enter_chat_room, _parse_chat,
    _parse_notification, _parse_donation, _parse_emoticon, packet.
  rewrite (split_join FF segs Hne Hs), !part_seg. done.
Qed.

(** X1 at a chat packet cut short after the user id: comment and user id
    are read, the name is empty. *)
Lemma parsers_read_segments_witness :
  let segs := [frame "0005" []; lit "X"; lit "user7"] in
  _parse_chat (join_with FF segs)
  = [(lit "comment", VStr (lit "X")); (lit "user_id", VStr (lit "user7"));
     (lit "username", VStr [])].
Proof.
  intros segs.
  destruct (parsers_read_segments segs) as (_ & _ & H & _).
  - discriminate.
  - apply (bool_decide_unpack _). by vm_compute.
  - exact H.
Defined.

Lemma zfill_length k s : length (zfill k s) = (k `max` length s)%nat.
Proof.
  unfold zfill.
  destruct (Nat.max_spec k (length s)) as [[? ->]|[? ->]];
    destruct s as [|c r]; try destruct (N.eqb c 43 || N.eqb c 45).
  all: rewrite ?length_cons, ?length_app, ?length_replicate, ?length_cons;
       cbn [length] in *; unfold char in *; lia.
Qed.

Lemma str_of_N_short n :
  (length (str_of_N n) <= 6)%nat <-> n < 1000000.
Proof.
  destruct (str_of_N_dec n) as (j & Hj & E & Hlt & Hmin).
  rewrite E, dec_length. split.
  - intros H. eapply N.lt_le_trans; [exact Hlt|].
    change 1000000 with (10 ^ N.of_nat 6). apply N.pow_le_mono_r; lia.
  - intros H. apply Hmin; [lia | exact H].
Qed.

(** X2.  The length field written for an encodable payload reads back as
    its UTF-8 byte count and is never shorter than six characters; it is
    exactly six characters when the count is below 1,000,000 and longer
    otherwise, [zfill] padding but never cutting. *)
Theorem payload_length_width (payload : str) (bs : bytes) :
  encode_utf8 payload = Some bs ->
  exists field,
    _get_payload_length payload = inr field
    /\ N_of_str field = Some (N.of_nat (length bs))
    /\ (6 <= length field)%nat
    /\ (length field = 6%nat <-> N.of_nat (length bs) < 1000000).
Proof.
  intros H. unfold _get_payload_length, _get_byte_size. rewrite H.
  eexists. split; [reflexivity|]. split; [apply N_of_str_zfill|].
  rewrite zfill_length. split; [lia|].
  rewrite <- str_of_N_short. lia.
Qed.

Lemma payload_length_width_witness :
  _get_payload_length (lit "hello") = inr (lit "000005")
  /\ (length (lit "000005") = 6%nat <-> 5 < 1000000).
Proof.
  destruct (payload_length_width (lit "hello") [104; 101; 108; 108; 111]
              eq_refl) as (field & E & _ & _ & Hw).
  assert (field = lit "000005") as ->
    by (vm_compute in E; injection E as <-; reflexivity).
  split; [reflexivity | exact Hw].
Defined.

Lemma encode_char_none c : encode_char c = None <-> unencodable c.
Proof.
  unfold encode_char, unencodable.
  destruct (N.ltb_spec c 128); [split; [done|lia]|].
  destruct (N.ltb_spec c 2048); [split; [done|lia]|].
  destruct (N.leb_spec 55296 c); destruct (N.leb_spec c 57343); simpl;
    try (split; [intros _; lia | done]).
  all: destruct (N.ltb_spec c 65536); [split; [done|lia]|].
  all: destruct (N.ltb_spec c 1114112); [split; [done|lia]|].
  all: split; [intros _; lia | done].
Qed.

Lemma encode_utf8_none s :
  encode_utf8 s = None <-> exists c, c ∈ s /\ unencodable c.
Proof.
  induction s as [|c r IH]; simpl.
  - split; [done|]. intros (c & Hc & _). by apply not_elem_of_nil in Hc.
  - destruct (encode_char c) as [b|] eqn:Ec.
    + destruct (encode_utf8 r) as [bs|].
      * split; [done|]. intros (c' & Hin & Hu).
        apply elem_of_cons in Hin as [->|Hin].
        -- apply encode_char_none in Hu. congruence.
        -- destruct IH as [_ IH]. discriminate IH. eauto.
      * split; [|done]. intros _.
        destruct IH as [IH _]. destruct (IH eq_refl) as (c' & Hin & Hu).
        exists c'. split; [by apply list_elem_of_further | done].
    + split; [|done]. intros _. exists c.
      split; [apply list_elem_of_here | by apply encode_char_none].
Qed.

(** X3.  Building a packet raises exactly when the payload holds a code
    point UTF-8 cannot encode (a surrogate, or one beyond U+10FFFF), and
    then with [UnicodeEncodeError]; the type code is never encoded and
    cannot make it fail. *)
Theorem get_packet_raises (chat_type payload : str) :
  (forall e, _get_packet chat_type payload = inl e -> e = UnicodeEncodeError)
  /\ ((exists e, _get_packet chat_type payload = inl e)
      <-> exists c, c ∈ payload /\ unencodable c).
Proof.
  rewrite <- encode_utf8_none.
  unfold _get_packet, _get_payload_length, _get_byte_size.
  destruct (encode_utf8 payload) as [bs|]; split.
  - by intros e.
  - split; [by intros [e ?] | done].
  - intros e. by intros [= <-].
  - split; [done | by eexists].
Qed.

(** X4.  Encoding then reading a packet back: for a four-character type
    code and a payload under 1,000,000 bytes, header parsing returns the
    type code, characters 6 to 11 are the six-digit byte length, characters
    12 and 13 are ["00"], what follows character 13 is the payload, and the
    packet is fourteen characters longer than the payload. *)
Theorem packet_round_trip (chat_type payload : str) (bs : bytes) :
  length chat_type = 4%nat ->
  encode_utf8 payload = Some bs ->
  N.of_nat (length bs) < 1000000 ->
  exists packet,
    _get_packet chat_type payload = inr packet
    /\ _parse_message_type packet = inr chat_type
    /\ slice packet 6 12 = decimal6 (N.of_nat (length bs))
    /\ slice packet 12 14 = lit "00"
    /\ drop 14 packet = payload
    /\ length packet = (14 + length payload)%nat.
Proof.
  intros Hl Henc Hlt.
  destruct (get_packet_layout chat_type payload bs Henc Hlt) as (E & _ & _).
  eexists. split; [exact E|].
  destruct chat_type as [|a [|b [|c [|d [|]]]]]; try done.
  split; [by eapply parse_accepts|]. by repeat split.
Qed.

Lemma packet_round_trip_witness :
  exists packet,
    _get_packet (lit "0005") (lit "hello") = inr packet
    /\ _parse_message_type packet = inr (lit "0005")
    /\ slice packet 6 12 = lit "000005"
    /\ drop 14 packet = lit "hello".
Proof.
  destruct (packet_round_trip (lit "0005") (lit "hello")
              [104; 101; 108; 108; 111] eq_refl eq_refl eq_refl)
    as (packet & E & Hp & Hf & _ & Hd & _).
  exists packet. by repeat split.
Defined.

Lemma get_packet_raises_witness :
  _get_packet (lit "0005") (lit "hi" ++ [55296])
  = inl UnicodeEncodeError.
Proof.
  destruct (get_packet_raises (lit "0005") (lit "hi" ++ [55296]))
    as [Honly [_ Hraises]].
  destruct Hraises as [e He].
  - exists 55296. split; [|unfold unencodable; lia].
    apply (bool_decide_unpack _). by vm_compute.
  - rewrite He. f_equal. exact (Honly e He).
Defined.

(** ** Binary messages *)

Lemma decode_1 b0 r :
  b0 < 128 -> decode_utf8 (b0 :: r) = cons b0 <$> decode_utf8 r.
Proof.
  intros H. cbn [decode_utf8].
  by destruct (N.ltb_spec b0 128); [|lia].
Qed.

Lemma decode_2 b0 b1 r :
  194 <= b0 <= 223 -> 128 <= b1 <= 191 ->
  decode_utf8 (b0 :: b1 :: r)
  = cons ((b0 - 192) * 64 + (b1 - 128)) <$> decode_utf8 r.
Proof.
  intros H0 H1. cbn [decode_utf8]. unfold is_cont.
  destruct (N.ltb_spec b0 128); [lia|].
  destruct (N.leb_spec 194 b0); [|lia]. destruct (N.leb_spec b0 223); [|lia].
  destruct (N.leb_spec 128 b1); [|lia]. destruct (N.leb_spec b1 191); [|lia].
  reflexivity.
Qed.

Lemma decode_3 b0 b1 b2 r :
  224 <= b0 <= 239 -> 128 <= b1 <= 191 -> 128 <= b2 <= 191 ->
  let c := (b0 - 224) * 4096 + (b1 - 128) * 64 + (b2 - 128) in
  2048 <= c -> ~ (55296 <= c <= 57343) ->
  decode_utf8 (b0 :: b1 :: b2 :: r) = cons c <$> decode_utf8 r.
Proof.
  intros H0 H1 H2 c Hc Hs. cbn [decode_utf8]. unfold is_cont. fold c.
  destruct (N.ltb_spec b0 128); [lia|].
  destruct (N.leb_spec 194 b0); [|lia]. destruct (N.leb_spec b0 223); [lia|].
  destruct (N.leb_spec 224 b0); [|lia]. destruct (N.leb_spec b0 239); [|lia].
  destruct (N.leb_spec 128 b1); [|lia]. destruct (N.leb_spec b1 191); [|lia].
  destruct (N.leb_spec 128 b2); [|lia]. destruct (N.leb_spec b2 191); [|lia].
  destruct (N.leb_spec 2048 c); [|lia].
  destruct (N.leb_spec 55296 c); destruct (N.leb_spec c 57343);
    try reflexivity. lia.
Qed.

Lemma decode_4 b0 b1 b2 b3 r :
  240 <= b0 <= 244 -> 128 <= b1 <= 191 -> 128 <= b2 <= 191 ->
  128 <= b3 <= 191 ->
  let c := (b0 - 240) * 262144 + (b1 - 128) * 4096
           + (b2 - 128) * 64 + (b3 - 128) in
  65536 <= c -> c < 1114112 ->
  decode_utf8 (b0 :: b1 :: b2 :: b3 :: r) = cons c <$> decode_utf8 r.
Proof.
  intros H0 H1 H2 H3 c Hc Hs. cbn [decode_utf8]. unfold is_cont. fold c.
  destruct (N.ltb_spec b0 128); [lia|].
  destruct (N.leb_spec 194 b0); [|lia]. destruct (N.leb_spec b0 223); [lia|].
  destruct (N.leb_spec 224 b0); [|lia]. destruct (N.leb_spec b0 239); [lia|].
  destruct (N.leb_spec 240 b0); [|lia]. destruct (N.leb_spec b0 244); [|lia].
  destruct (N.leb_spec 128 b1); [|lia]. destruct (N.leb_spec b1 191); [|lia].
  destruct (N.leb_spec 128 b2); [|lia]. destruct (N.leb_spec b2 191); [|lia].
  destruct (N.leb_spec 128 b3); [|lia]. destruct (N.leb_spec b3 191); [|lia].
  destruct (N.leb_spec 65536 c); [|lia].
  destruct (N.ltb_spec c 1114112); [|lia]. reflexivity.
Qed.

(** The digits of a code point in base 64. *)
Lemma base64_digits (c : N) :
  c = 64 * (c / 64) + c mod 64
  /\ c / 64 = 64 * (c / 4096) + (c / 64) mod 64
  /\ c / 4096 = 64 * (c / 262144) + (c / 4096) mod 64
  /\ c mod 64 < 64 /\ (c / 64) mod 64 < 64 /\ (c / 4096) mod 64 < 64.
Proof.
  pose proof (N.Div0.div_mod c 64).
  pose proof (N.Div0.div_mod (c / 64) 64) as H1.
  pose proof (N.Div0.div_mod (c / 4096) 64) as H2.
  rewrite N.Div0.div_div in H1. rewrite N.Div0.div_div in H2.
  change (64 * 64) with 4096 in H1. change (4096 * 64) with 262144 in H2.
  repeat split; try done; apply N.mod_upper_bound; lia.
Qed.

Lemma decode_encode_char (c : N) (b r : list N) :
  encode_char c = Some b ->
  decode_utf8 (b ++ r) = cons c <$> decode_utf8 r.
Proof.
  unfold encode_char. intros H.
  destruct (base64_digits c) as (E0 & E1 & E2 & L0 & L1 & L2).
  set (q1 := c / 64) in *. set (q2 := c / 4096) in *.
  set (q3 := c / 262144) in *. set (m0 := c mod 64) in *.
  set (m1 := q1 mod 64) in *. set (m2 := q2 mod 64) in *.
  clearbody q1 q2 q3 m0 m1 m2.
  destruct (N.ltb_spec c 128).
  { injection H as <-. by apply decode_1. }
  destruct (N.ltb_spec c 2048).
  { injection H as <-. cbn [app]. rewrite decode_2 by lia.
    do 2 f_equal. lia. }
  destruct (N.leb_spec 55296 c); destruct (N.leb_spec c 57343);
    cbn [andb] in H; try done.
  all: destruct (N.ltb_spec c 65536);
       [injection H as <-; cbn [app]; rewrite decode_3 by lia;
        do 2 f_equal; lia|].
  all: destruct (N.ltb_spec c 1114112); [|done].
  all: injection H as <-; cbn [app]; rewrite decode_4 by lia;
       do 2 f_equal; lia.
Qed.

(** Decoding undoes encoding. *)
Lemma decode_encode s bs :
  encode_utf8 s = Some bs -> decode_utf8 bs = Some s.
Proof.
  revert bs; induction s as [|c r IH]; intros bs H.
  - by injection H as <-.
  - apply encode_utf8_cons in H as (b & bs' & Hb & Hr & ->).
    rewrite (decode_encode_char _ _ _ Hb), (IH _ Hr). reflexivity.
Qed.

(** ** More on the dispatcher *)

Lemma run_calls_prefix hs data :
  exists called rest,
    hs = called ++ rest
    /\ (run_calls hs data).2 = (fun h => Call (h_id h) data) <$> called
    /\ ((run_calls hs data).1 = None -> rest = [])
    /\ (forall e, (run_calls hs data).1 = Some e ->
        exists pre h, called = pre ++ [h] /\ h_run h data = Some e
                      /\ Forall (fun h' => h_run h' data = None) pre).
Proof.
  induction hs as [|h hs IH]; simpl.
  - exists [], []. repeat split; try done.
  - destruct (h_run h data) as [e|] eqn:Eh.
    + exists [h], hs. repeat split; try done.
      intros e' [= <-]. exists [], h. by repeat split.
    + destruct IH as (called & rest & -> & Hc & Hn & Hs).
      destruct (run_calls (called ++ rest) data) as [o t]. simpl in *.
      exists (h :: called), rest. repeat split; try done.
      * by rewrite Hc.
      * intros e He. destruct (Hs e He) as (pre & h' & -> & Hh' & Hpre).
        exists (h :: pre), h'. repeat split; try done. by constructor.
Qed.

(** X5.  Whatever the subscribers do, [_emit] calls a prefix of the
    handlers registered for the event, in registration order and each with
    the payload it was given, calls no handler of another event, and
    changes no field of the client; it returns only after calling them
    all, and raises only what the last handler it called raised, every
    handler before that one having returned. *)
Theorem emit_calls_prefix (s : state) (event : str) (data : payload) :
  exists called rest,
    subscribers (cl s) event = called ++ rest
    /\ snd (_emit event data s)
       = record (Emit event data
                 :: ((fun h => Call (h_id h) data) <$> called)) s
    /\ (fst (_emit event data s) = inr tt -> rest = [])
    /\ (forall e, fst (_emit event data s) = inl e ->
        exists pre h, called = pre ++ [h] /\ h_run h data = Some e
                      /\ Forall (fun h' => h_run h' data = None) pre).
Proof.
  rewrite emit_eq. cbn [fst snd].
  destruct (run_calls_prefix (subscribers (cl s) event) data)
    as (called & rest & E & Hc & Hn & Hs).
  exists called, rest. rewrite Hc. repeat split; try done.
  - destruct (run_calls _ _).1; [done | auto].
  - intros e He. apply Hs. by destruct (run_calls _ _).1 as [e'|]; [injection He as ->|].
Qed.

(** X5 at the client whose first chat subscriber raises. *)
Lemma emit_calls_prefix_witness :
  let s := start faulty_client counting_clock in
  exists called rest,
    [faulty 1; recorder 2] = called ++ rest
    /\ snd (_emit (lit "chat") (PStr (lit "hi")) s)
       = record (Emit (lit "chat") (PStr (lit "hi"))
                 :: ((fun h => Call (h_id h) (PStr (lit "hi"))) <$> called)) s
    /\ exists pre h, called = pre ++ [h]
                     /\ h_run h (PStr (lit "hi")) = Some (OtherError 1).
Proof.
  intros s.
  destruct (emit_calls_prefix s (lit "chat") (PStr (lit "hi")))
    as (called & rest & E & Ht & _ & Hr).
  exists called, rest. split; [exact E|]. split; [exact Ht|].
  destruct (Hr (OtherError 1) eq_refl) as (pre & h & Hc & Hh & _).
  by exists pre, h.
Defined.

(** X6.  [on] appends the handler to the list of its event, so that
    registration order is kept and a handler registered twice is listed
    twice; the lists of all other events and every other field of the
    client stay as they were. *)
Theorem on_appends_subscriber (c : client) (event : str) (h : handler) :
  subscribers (on event h c) event = subscribers c event ++ [h]
  /\ (forall other, other <> event ->
      subscribers (on event h c) other = subscribers c other)
  /\ streamer_id (on event h c) = streamer_id c
  /\ ws (on event h c) = ws c
  /\ live_detail (on event h c) = live_detail c
  /\ _connected (on event h c) = _connected c
  /\ _entered (on event h c) = _entered c
  /\ _ping_task (on event h c) = _ping_task c.
Proof.
  split; [|split; [|done]].
  - rewrite subscribers_on. by rewrite decide_True.
  - intros other Hne. rewrite subscribers_on. by rewrite decide_False.
Qed.

Lemma on_appends_subscriber_witness :
  subscribers (on (lit "chat") (recorder 1) watched_client) (lit "chat")
  = [recorder 1; recorder 2; recorder 1]
  /\ subscribers (on (lit "chat") (recorder 1) watched_client)
       (lit "disconnect")
     = [recorder 3].
Proof.
  destruct (on_appends_subscriber watched_client (lit "chat") (recorder 1))
    as (Hs & Ho & _).
  split; [exact Hs|]. apply Ho. discriminate.
Defined.

(** X7.  Registering and then emitting: when the handlers already
    registered for an event return on a payload and the new handler does
    too, emitting the event on the client that registered it calls the old
    handlers in their order and the new one last, all with that payload. *)
Theorem emit_after_on (s : state) (event : str) (h : handler) (data : payload) :
  quiet_on (cl s) event data ->
  h_run h data = None ->
  let s' := {| cl := on event h (cl s); wd := wd s |} in
  exists t,
    _emit event data s' = (inr tt, record t s')
    /\ invoked t
       = ((fun h' => (h_id h', data)) <$> subscribers (cl s) event)
         ++ [(h_id h, data)].
Proof.
  intros Hq Hh s'.
  assert (Hq' : quiet_on (cl s') event data).
  { unfold quiet_on, s'. cbn [cl]. rewrite subscribers_on, decide_True by done.
    rewrite run_calls_app_quiet by exact Hq. simpl. by rewrite Hh. }
  rewrite (emit_quiet _ _ _ Hq'). eexists. split; [reflexivity|].
  unfold calls, s'. cbn [cl]. rewrite subscribers_on, decide_True by done.
  change (invoked (?e :: ?t)) with (invoked t).
  by rewrite invoked_calls, fmap_app.
Qed.

Lemma emit_after_on_witness :
  let s := start watched_client counting_clock in
  let s' := {| cl := on (lit "chat") (recorder 9) (cl s); wd := wd s |} in
  exists t,
    _emit (lit "chat") (PStr (lit "hi")) s' = (inr tt, record t s')
    /\ invoked t = [(1%nat, PStr (lit "hi")); (2%nat, PStr (lit "hi"));
                    (9%nat, PStr (lit "hi"))].
Proof.
  intros s s'.
  exact (emit_after_on s (lit "chat") (recorder 9) (PStr (lit "hi"))
           eq_refl eq_refl).
Defined.

(** ** More on handling a message *)

(** X8.  A binary message that is the UTF-8 encoding of a text is handled
    exactly as the text message would be. *)
Theorem binary_message_as_text (s : state) (packet : str) (bs : bytes) :
  encode_utf8 packet = Some bs ->
  _handle_message (Binary bs) s = _handle_message (Text packet) s.
Proof.
  intros H. unfold _handle_message. cbn [packet_of].
  by rewrite (decode_encode _ _ H).
Qed.

Lemma binary_message_as_text_witness :
  let s := start watched_client counting_clock in
  _handle_message (Binary [27; 9; 48; 48; 48; 53; 234; 176; 128]) s
  = _handle_message (Text (STARTER ++ lit "0005" ++ [44032])) s.
Proof.
  intros s.
  exact (binary_message_as_text s (STARTER ++ lit "0005" ++ [44032])
           [27; 9; 48; 48; 48; 53; 234; 176; 128] eq_refl).
Defined.

(** X9.  A binary message that is not valid UTF-8 raises
    [UnicodeDecodeError] out of the handler before anything is emitted:
    not even [raw], no subscriber called, nothing printed or sent, no field
    of the client changed; only the clock was read. *)
Theorem undecodable_message (s : state) (bs : bytes) :
  decode_utf8 bs = None ->
  let r := _handle_message (Binary bs) s in
  fst r = inl UnicodeDecodeError
  /\ cl (snd r) = cl s
  /\ trace (wd (snd r)) = trace (wd s)
  /\ sock_open (wd (snd r)) = sock_open (wd s)
  /\ tick (wd (snd r)) = S (tick (wd s)).
Proof.
  intros H. unfold _handle_message. cbn [packet_of]. rewrite H.
  by mrun.
Qed.

Lemma undecodable_message_witness :
  let s := start watched_client counting_clock in
  let r := _handle_message (Binary [255; 48]) s in
  fst r = inl UnicodeDecodeError /\ trace (wd (snd r)) = [].
Proof.
  intros s r.
  destruct (undecodable_message s [255; 48] eq_refl) as (He & _ & Ht & _).
  split; [exact He | exact Ht].
Defined.

(** X10.  A chat frame made of segments joined by SEP emits, after [raw],
    one [chat] event whose fields are the segments 1, 2 and 6 (comment,
    user id, user name; empty where the frame is shorter) and the clock
    reading taken when the frame arrived. *)
Theorem chat_event_fields (s : state) (segs : list str) :
  segs <> [] ->
  Forall (fun x => FF ∉ x) segs ->
  _parse_message_type (join_with FF segs) = inr (lit "0005") ->
  quiet_on (cl s) (lit "raw") (PStr (join_with FF segs)) ->
  exists t,
    trace (wd (snd (_handle_message (Text (join_with FF segs)) s)))
    = trace (wd s) ++ t
    /\ emitted t
       = [(lit "raw", PStr (join_with FF segs));
          (lit "chat",
           PDict [(lit "comment", VStr (seg segs 1));
                  (lit "user_id", VStr (seg segs 2));
                  (lit "username", VStr (seg segs 6));
                  (lit "time", VStr (clock (wd s) (tick (wd s))))])].
Proof.
  intros Hne Hs Hp Hq. unfold quiet_on in Hq.
  change (lit "raw") with SoopChatEvent.RAW in Hq.
  pose proof (split_join FF segs Hne Hs) as Hsplit.
  unfold _handle_message, disconnect. mrun; try absurd_code.
  eexists. split; [trace_eq|]. events.
  unfold timed, _parse_chat. rewrite Hsplit, !part_seg. reflexivity.
Qed.

Lemma chat_event_fields_witness :
  let s := start bare_client counting_clock in
  exists t,
    trace (wd (snd (_handle_message (Text chat_frame) s))) = trace (wd s) ++ t
    /\ emitted t
       = [(lit "raw", PStr chat_frame);
          (lit "chat",
           PDict [(lit "comment", VStr (lit "X"));
                  (lit "user_id", VStr (lit "user7"));
                  (lit "username", VStr (lit "Nick"));
                  (lit "time", VStr (lit "0"))])].
Proof.
  intros s.
  assert (Hs : Forall (fun x : str => FF ∉ x)
                 [frame "0005" []; lit "X"; lit "user7"; []; []; [];
                  lit "Nick"; []]).
  { apply (bool_decide_unpack _). by vm_compute. }
  exact (chat_event_fields s
           [frame "0005" []; lit "X"; lit "user7"; []; []; []; lit "Nick"; []]
           ltac:(discriminate) Hs eq_refl eq_refl).
Defined.

(** X11.  A donation frame of type 0018, 0105 or 0087 made of segments
    joined by SEP emits, after [raw], one event of kind text_donation,
    video_donation or ad_balloon_donation whose fields are the segments 2
    to 5 (recipient, sender id, sender name, amount as text) and the clock
    reading taken when the frame arrived. *)
Theorem donation_event_fields (s : state) (segs : list str) (code kind : str) :
  (code, kind) ∈ [(lit "0018", lit "text_donation");
                  (lit "0105", lit "video_donation");
                  (lit "0087", lit "ad_balloon_donation")] ->
  segs <> [] ->
  Forall (fun x => FF ∉ x) segs ->
  _parse_message_type (join_with FF segs) = inr code ->
  quiet_on (cl s) (lit "raw") (PStr (join_with FF segs)) ->
  exists t,
    trace (wd (snd (_handle_message (Text (join_with FF segs)) s)))
    = trace (wd s) ++ t
    /\ emitted t
       = [(lit "raw", PStr (join_with FF segs));
          (kind,
           PDict [(lit "to", VStr (seg segs 2));
                  (lit "from", VStr (seg segs 3));
                  (lit "from_username", VStr (seg segs 4));
                  (lit "amount", VStr (seg segs 5));
                  (lit "time", VStr (clock (wd s) (tick (wd s))))])].
Proof.
  intros Hin Hne Hs Hp Hq. unfold quiet_on in Hq.
  change (lit "raw") with SoopChatEvent.RAW in Hq.
  pose proof (split_join FF segs Hne Hs) as Hsplit.
  repeat (apply elem_of_cons in Hin as [Hin|Hin]; [injection Hin as -> ->|]);
    try (by apply not_elem_of_nil in Hin).
  all: unfold _handle_message, disconnect; mrun; try absurd_code.
  all: eexists; (split; [trace_eq|]); events.
  all: unfold timed, _parse_donation; rewrite Hsplit, !part_seg; reflexivity.
Qed.

Lemma donation_event_fields_witness :
  let s := start bare_client counting_clock in
  let segs := [frame "0018" []; []; lit "bjId"; lit "fromId"; lit "FromNick";
               lit "1000"] in
  exists t,
    trace (wd (snd (_handle_message (Text (join_with FF segs)) s)))
    = trace (wd s) ++ t
    /\ emitted t
       = [(lit "raw", PStr (join_with FF segs));
          (lit "text_donation",
           PDict [(lit "to", VStr (lit "bjId"));
                  (lit "from", VStr (lit "fromId"));
                  (lit "from_username", VStr (lit "FromNick"));
                  (lit "amount", VStr (lit "1000"));
                  (lit "time", VStr (lit "0"))])].
Proof.
  intros s segs.
  assert (Hs : Forall (fun x : str => FF ∉ x) segs).
  { apply (bool_decide_unpack _). by vm_compute. }
  exact (donation_event_fields s segs (lit "0018") (lit "text_donation")
           (list_elem_of_here _ _) ltac:(discriminate) Hs eq_refl eq_refl).
Defined.

(** ** More on [disconnect()] *)

(** X12.  On a connected client whose [disconnect] subscribers return,
    [disconnect()] first emits the event, carrying the room id and the
    clock reading, and calls the subscribers; only then does it cancel the
    keepalive task and after that close the socket, each if present; it
    ends with no socket, no task, the flag cleared and the other fields as
    they were. *)
Theorem disconnect_order (s : state) :
  _connected (cl s) = true ->
  quiet_on (cl s) (lit "disconnect")
    (disconnect_payload (streamer_id (cl s)) (clock (wd s) (tick (wd s)))) ->
  let data := disconnect_payload (streamer_id (cl s))
                (clock (wd s) (tick (wd s))) in
  exists s',
    disconnect s = (inr tt, s')
    /\ trace (wd s')
       = trace (wd s)
         ++ [Emit (lit "disconnect") data]
         ++ calls (cl s) (lit "disconnect") data
         ++ match _ping_task (cl s) with Some _ => [TaskCancel] | None => [] end
         ++ match ws (cl s) with Some _ => [WsClose] | None => [] end
    /\ sock_open (wd s')
       = match ws (cl s) with Some _ => false | None => sock_open (wd s) end
    /\ cl s' = released (cl s).
Proof.
  intros Hc Hq data. unfold quiet_on, disconnect_payload in Hq.
  change (lit "disconnect") with SoopChatEvent.DISCONNECT in *.
  pose proof (run_calls_quiet _ _ Hq) as Hcalls.
  unfold disconnect. mrun; try discriminate.
  all: eexists; (split; [reflexivity|]);
       cbn [cl wd trace sock_open]; unfold calls, data, disconnect_payload;
       rewrite <- Hcalls, <- ?app_assoc, ?app_nil_r;
       repeat split; first [reflexivity | unfold released; congruence].
Qed.

Lemma disconnect_order_witness :
  exists s',
    disconnect acked_state = (inr tt, s')
    /\ trace (wd s')
       = trace (wd acked_state)
         ++ [Emit (lit "disconnect")
               (disconnect_payload (lit "room") (lit "1"));
             Call 3 (disconnect_payload (lit "room") (lit "1"));
             TaskCancel; WsClose]
    /\ cl s' = released (cl acked_state).
Proof.
  destruct (disconnect_order acked_state eq_refl eq_refl)
    as (s' & E & Ht & _ & Hc).
  exists s'. split; [exact E|]. split; [exact Ht | exact Hc].
Defined.

(** X13.  [disconnect()] twice: when the subscribers do not raise, a call
    that follows another changes nothing and emits nothing, so the
    [disconnect] event goes out at most once per connection. *)
Theorem disconnect_twice (s : state) :
  quiet (cl s) ->
  fst (disconnect s) = inr tt
  /\ disconnect (snd (disconnect s)) = (inr tt, snd (disconnect s)).
Proof.
  intros Hq. destruct (_connected (cl s)) eqn:Hc.
  - destruct (disconnect_connected s Hc Hq)
      as (s' & t & E & _ & _ & _ & _ & _ & Hf & _).
    rewrite E. cbn [fst snd]. split; [done|]. by apply disconnect_idle.
  - rewrite (disconnect_idle s Hc). cbn [fst snd]. split; [done|].
    by apply disconnect_idle.
Qed.

Lemma disconnect_twice_witness :
  disconnect (snd (disconnect acked_state))
  = (inr tt, snd (disconnect acked_state)).
Proof.
  destruct (disconnect_twice acked_state) as [_ H]; [|exact H].
  apply (quiet_table watched_client); [reflexivity|].
  exact quiet_watched_client.
Defined.

(** X14.  When a [disconnect] subscriber raises, the exception leaves
    [disconnect()] before anything is released: the task is not cancelled,
    the socket is neither closed nor dropped, the connected flag stays set
    and no field of the client changes. *)
Theorem disconnect_subscriber_raises (s : state) (e : exn) :
  _connected (cl s) = true ->
  fst (run_calls (subscribers (cl s) (lit "disconnect"))
         (disconnect_payload (streamer_id (cl s))
            (clock (wd s) (tick (wd s)))))
  = Some e ->
  let r := disconnect s in
  fst r = inl e
  /\ cl (snd r) = cl s
  /\ sock_open (wd (snd r)) = sock_open (wd s)
  /\ exists t, trace (wd (snd r)) = trace (wd s) ++ t
               /\ Forall (fun x => ~ release_effect x) t.
Proof.
  intros Hc He. unfold disconnect_payload in He.
  change (lit "disconnect") with SoopChatEvent.DISCONNECT in He.
  unfold disconnect. mrun; try discriminate.
  injection He as ->. repeat split.
  eexists. split; [reflexivity|]. constructor; [by intros []|].
  apply Forall_forall. intros x Hx.
  apply run_calls_only_calls in Hx as [h ->]. by intros [].
Qed.

Lemma disconnect_subscriber_raises_witness :
  let r := disconnect grumpy_state in
  fst r = inl (OtherError 8)
  /\ cl (snd r) = cl grumpy_state
  /\ sock_open (wd (snd r)) = true.
Proof.
  intros r.
  destruct (disconnect_subscriber_raises grumpy_state (OtherError 8)
              eq_refl eq_refl) as (He & Hc & Ho & _).
  split; [exact He|]. split; [exact Hc | exact Ho].
Defined.

(** ** More on runs of the client *)

Lemma sent_app t1 t2 : sent (t1 ++ t2) = sent t1 ++ sent t2.
Proof. apply omap_app. Qed.

Lemma sent_run_calls hs data : sent (snd (run_calls hs data)) = [].
Proof.
  induction hs as [|h hs IH]; simpl; [done|].
  destruct (h_run h data); [done|].
  by destruct (run_calls hs data).
Qed.

Lemma sent_cons_send p t : sent (WsSend p :: t) = p :: sent t.
Proof. reflexivity. Qed.

Lemma sent_cons_other e t :
  (forall p, e <> WsSend p) -> sent (e :: t) = sent t.
Proof. intros H. destruct e; try done. by destruct (H packet). Qed.

(** Rewrites the frames sent in a trace that is written out. *)
Ltac sends :=
  repeat first
    [ rewrite sent_app
    | rewrite sent_cons_send
    | rewrite sent_run_calls
    | rewrite sent_cons_other by done
    | rewrite app_nil_r
    | progress (cbn [sent omap app]) ].


Lemma join_payload_encodable chat_no bs :
  encode_utf8 chat_no = Some bs ->
  exists p, _get_packet ChatType.ENTER_CHAT_ROOM (join_payload chat_no)
            = inr p.
Proof.
  intros Hbs. eexists. apply get_packet_eq.
  apply (encode_utf8_app [FF]); [done|]. by apply encode_utf8_app.
Qed.








Lemma keeps_refl s : keeps_subscriptions s s.
Proof. by repeat split. Qed.

Lemma keeps_trans s1 s2 s3 :
  keeps_subscriptions s1 s2 -> keeps_subscriptions s2 s3 ->
  keeps_subscriptions s1 s3.
Proof.
  intros (H1 & H2 & H3) (H4 & H5 & H6). repeat split; try congruence. auto.
Qed.

Lemma handle_message_keeps data s :
  keeps_subscriptions s (snd (_handle_message data s)).
Proof.
  unfold keeps_subscriptions, _handle_message, disconnect.
  mrun; by repeat split.
Qed.

Lemma disconnect_keeps s : keeps_subscriptions s (snd (disconnect s)).
Proof. unfold keeps_subscriptions, disconnect. mrun; by repeat split. Qed.

Lemma receive_keeps messages s :
  keeps_subscriptions s (snd (receive messages s)).
Proof.
  revert s; induction messages as [|m r IH]; intros s; cbn [receive].
  - apply keeps_refl.
  - unfold mbind, M_bind, bind.
    pose proof (handle_message_keeps m s) as H.
    destruct (_handle_message m s) as [[e|[]] s1]; cbn [snd] in *; [done|].
    eapply keeps_trans; [exact H | apply IH].
Qed.

Lemma reading_loop_keeps env s :
  keeps_subscriptions s (snd (reading_loop env s)).
Proof.
  unfold reading_loop, except_closed, mbind, M_bind, bind.
  pose proof (receive_keeps (inbound env) s) as H.
  destruct (receive (inbound env) s) as [[e|[]] s1]; cbn [snd] in *.
  - destruct e; try done.
    eapply keeps_trans; [exact H | apply disconnect_keeps].
  - change (set_sock_open false s1) with (@inr exn unit tt, hung_up s1).
    cbv beta iota.
    destruct (ends_closed_error env); unfold raise, ret; [|exact H].
    eapply keeps_trans; [exact H | apply (disconnect_keeps (hung_up s1))].
Qed.

Lemma connect_keeps unicode_lower env s :
  keeps_subscriptions s (snd (connect unicode_lower env s)).
Proof.
  unfold connect, _get_live_detail, _make_chat_url.
  fold (reading_loop env). mrun; try apply keeps_refl; try (by repeat split).
  all: eapply keeps_trans; [|apply reading_loop_keeps]; by repeat split.
Qed.

(** X16.  Nothing but [on] touches the subscriptions: handling a message,
    [disconnect()] and a whole run of [connect()] leave the handler table
    and the room id as they were, whatever arrives and however they end;
    and none of them clears the entered flag once it is set, not even
    [disconnect()]. *)
Theorem session_keeps_subscriptions (s : state) :
  (forall data, keeps_subscriptions s (snd (_handle_message data s)))
  /\ keeps_subscriptions s (snd (disconnect s))
  /\ (forall unicode_lower env,
        keeps_subscriptions s (snd (connect unicode_lower env s))).
Proof.
  split; [intros; apply handle_message_keeps|].
  split; [apply disconnect_keeps | intros; apply connect_keeps].
Qed.

(** Handling a frame of type 0002, in terms of what the parser returns. *)
Lemma enter_frame_handled (s : state) (packet : str) :
  _parse_message_type packet = inr (lit "0002") ->
  quiet_on (cl s) (lit "raw") (PStr packet) ->
  let data := timed (_parse_enter_chat_room packet)
                (clock (wd s) (tick (wd s))) in
  let r := _handle_message (Text packet) s in
  (exists t, trace (wd (snd r)) = trace (wd s) ++ t
             /\ emitted t = [(lit "raw", PStr packet);
                             (lit "enter_chat_room", data)]
             /\ (fst r = inr tt -> last t = Some (Print LogEntered)))
  /\ (quiet_on (cl s) (lit "enter_chat_room") data ->
      fst r = inr tt
      /\ cl (snd r)
         = {| streamer_id := streamer_id (cl s); ws := ws (cl s);
              live_detail := live_detail (cl s); handlers := handlers (cl s);
              _connected := _connected (cl s); _entered := true;
              _ping_task := _ping_task (cl s) |})
  /\ (forall e,
        fst (run_calls (subscribers (cl s) (lit "enter_chat_room")) data)
        = Some e ->
        fst r = inl e /\ cl (snd r) = cl s).
Proof.
  intros Hp Hq data r. unfold quiet_on in *.
  change (lit "raw") with SoopChatEvent.RAW in *.
  change (lit "enter_chat_room") with SoopChatEvent.ENTER_CHAT_ROOM in *.
  unfold r, data, _handle_message, disconnect. mrun; try absurd_code.
  all: split;
    [eexists; split; [trace_eq|]; split;
       [by events | intros H; try discriminate H;
                    by rewrite ?app_assoc, last_snoc]|].
  all: split; [intros H | intros e' H]; try discriminate H; try done.
  by injection H as ->.
Qed.

(** X17.  A frame of type 0002 made of segments joined by SEP emits, after
    [raw], one [enter_chat_room] event whose fields are the segments 2 and 7
    (room id and acknowledgement; empty where the frame is shorter) and the
    clock reading taken when the frame arrived.  When the subscribers of
    that event return, the handler then sets the entered flag, changing no
    other field, prints the entry line last and returns; when one of them
    raises, the exception leaves the handler and the flag is as it was. *)
Theorem enter_sets_entered (s : state) (segs : list str) :
  segs <> [] ->
  Forall (fun x => FF ∉ x) segs ->
  _parse_message_type (join_with FF segs) = inr (lit "0002") ->
  quiet_on (cl s) (lit "raw") (PStr (join_with FF segs)) ->
  let data := PDict [(lit "streamer_id", VStr (seg segs 2));
                     (lit "syn_ack", VStr (seg segs 7));
                     (lit "time", VStr (clock (wd s) (tick (wd s))))] in
  let r := _handle_message (Text (join_with FF segs)) s in
  (exists t, trace (wd (snd r)) = trace (wd s) ++ t
             /\ emitted t = [(lit "raw", PStr (join_with FF segs));
                             (lit "enter_chat_room", data)]
             /\ (fst r = inr tt -> last t = Some (Print LogEntered)))
  /\ (quiet_on (cl s) (lit "enter_chat_room") data ->
      fst r = inr tt
      /\ cl (snd r)
         = {| streamer_id := streamer_id (cl s); ws := ws (cl s);
              live_detail := live_detail (cl s); handlers := handlers (cl s);
              _connected := _connected (cl s); _entered := true;
              _ping_task := _ping_task (cl s) |})
  /\ (forall e,
        fst (run_calls (subscribers (cl s) (lit "enter_chat_room")) data)
        = Some e ->
        fst r = inl e /\ cl (snd r) = cl s).
Proof.
  intros Hne Hs Hp Hq data r.
  assert (Hd : timed (_parse_enter_chat_room (join_with FF segs))
                 (clock (wd s) (tick (wd s))) = data).
  { unfold timed, _parse_enter_chat_room.
    rewrite (split_join FF segs Hne Hs), !part_seg. reflexivity. }
  pose proof (enter_frame_handled s (join_with FF segs) Hp Hq) as H.
  cbv zeta in H. rewrite Hd in H. exact H.
Qed.

Lemma enter_sets_entered_witness :
  let s := start watched_client counting_clock in
  let segs := [frame "0002" []; lit "a"; lit "room"; []; []; []; [];
               lit "ack"] in
  let r := _handle_message (Text (join_with FF segs)) s in
  fst r = inr tt
  /\ _entered (cl (snd r)) = true
  /\ exists t,
       trace (wd (snd r)) = trace (wd s) ++ t
       /\ emitted t
          = [(lit "raw", PStr (join_with FF segs));
             (lit "enter_chat_room",
              PDict [(lit "streamer_id", VStr (lit "room"));
                     (lit "syn_ack", VStr (lit "ack"));
                     (lit "time", VStr (lit "0"))])].
Proof.
  intros s segs r.
  assert (Hs : Forall (fun x : str => FF ∉ x) segs).
  { apply (bool_decide_unpack _). by vm_compute. }
  destruct (enter_sets_entered s segs ltac:(discriminate) Hs eq_refl eq_refl)
    as ((t & Ht & He & _) & H & _).
  destruct (H eq_refl) as [Hr Hc]. split; [exact Hr|].
  split; [unfold r; rewrite Hc; reflexivity|].
  exists t. split; [exact Ht | exact He].
Defined.

Lemma calls_no_release hs data :
  Forall (fun x => ~ release_effect x) (run_calls hs data).2.
Proof.
  apply Forall_forall. intros x Hx.
  apply run_calls_only_calls in Hx as [h ->]. by intros [].
Qed.

(** The acknowledgement in a session that can still talk: the state it
    leaves, written out. *)
Lemma frame_ack_exact s packet d bs w :
  quiet (cl s) ->
  _parse_message_type packet = inr (lit "0001") ->
  live_detail (cl s) = Some d ->
  encode_utf8 (chat_no d) = Some bs ->
  ws (cl s) = Some w ->
  sock_open (wd s) = true ->
  exists t,
    _handle_message (Text packet) s
    = (inr tt,
       {| cl := {| streamer_id := streamer_id (cl s); ws := Some w;
                   live_detail := Some d; handlers := handlers (cl s);
                   _connected := true; _entered := _entered (cl s);
                   _ping_task := _ping_task (cl s) |};
          wd := {| trace := trace (wd s) ++ t; sock_open := true;
                   clock := clock (wd s); tick := S (tick (wd s)) |} |})
    /\ kinds t = [lit "raw"; lit "connect"]
    /\ Forall (fun x => ~ release_effect x) t.
Proof.
  intros Hq Hp Hd Hbs Hw Ho.
  destruct (join_payload_encodable _ _ Hbs) as [join Hj].
  unfold _handle_message, disconnect, _get_join_packet.
  mrun; try absurd_code; try absurd_quiet Hq.
  eexists. split; [rewrite <- !app_assoc; reflexivity|].
  split; [by events|].
  repeat first [ apply Forall_app; split
               | apply Forall_cons; split; [by intros []|]
               | apply calls_no_release
               | apply Forall_nil_2 ].
Qed.

Section ConnectExtras.

Variable unicode_lower : str -> str.

(** X18.  [connect()] gives up early without touching a socket: on a
    client already connected it raises before doing anything at all, and
    when resolution raises it passes the exception on with the request as
    its only effect and the stored descriptor unchanged. *)
Theorem connect_fails_early (env : session_env) (s : state) :
  (_connected (cl s) = true ->
   connect unicode_lower env s
   = (inl (Exception (lit "Already connected")), s))
  /\ (forall e, _connected (cl s) = false -> resolved env = inl e ->
      connect unicode_lower env s
      = (inl e, record [resolve_request (streamer_id (cl s))] s)).
Proof.
  split.
  - intros Hc. unfold connect. mrun. by destruct s.
  - intros e Hc Hr. unfold connect, _get_live_detail. mrun. reflexivity.
Qed.

(** X19.  When the handshake is refused, [connect()] raises what the
    handshake raised: the descriptor is stored, but the client holds no
    socket it did not hold before, no keepalive task was created and no
    frame was sent. *)
Theorem connect_handshake_refused (env : session_env) (s : state)
    (d : LiveDetail) (e : exn) :
  _connected (cl s) = false ->
  resolved env = inr d ->
  result d <> 0%Z ->
  handshake env = Some e ->
  let r := connect unicode_lower env s in
  fst r = inl e
  /\ cl (snd r)
     = {| streamer_id := streamer_id (cl s); ws := ws (cl s);
          live_detail := Some d; handlers := handlers (cl s);
          _connected := false; _entered := _entered (cl s);
          _ping_task := _ping_task (cl s) |}
  /\ exists t, trace (wd (snd r)) = trace (wd s) ++ t
               /\ sent t = []
               /\ TaskCreate ∉ t.
Proof.
  intros Hc Hr Hres Hh r. apply Z.eqb_neq in Hres.
  unfold r, connect, _get_live_detail, _make_chat_url. mrun.
  split; [done|]. split; [by rewrite Hc|].
  eexists. split; [trace_eq|]. split; [by sends|].
  intros Hin.
  rewrite ?elem_of_app, ?elem_of_cons, ?list_elem_of_singleton in Hin.
  rewrite ?elem_of_nil in Hin. intuition discriminate.
Qed.

(** X20.  How the run ends decides whether anything is released.  After
    the acknowledgement, with subscribers that do not raise: when the
    socket iteration just ends, [connect()] returns with the client still
    marked connected, the socket object and the keepalive task still held,
    and no [disconnect] event; when it ends with [ConnectionClosed],
    [connect()] returns after [disconnect()] has emitted the event,
    cancelled the task and closed the socket. *)
Theorem session_end_decides_release (env : session_env) (s : state)
    (d : LiveDetail) (bs : bytes) (packet : str) :
  _connected (cl s) = false ->
  quiet (cl s) ->
  resolved env = inr d ->
  result d <> 0%Z ->
  encode_utf8 (chat_no d) = Some bs ->
  handshake env = None ->
  inbound env = [Text packet] ->
  _parse_message_type packet = inr (lit "0001") ->
  let r := connect unicode_lower env s in
  exists t,
    fst r = inr tt
    /\ trace (wd (snd r)) = trace (wd s) ++ t
    /\ (ends_closed_error env = false ->
        kinds t = [lit "raw"; lit "connect"]
        /\ _connected (cl (snd r)) = true
        /\ is_Some (ws (cl (snd r)))
        /\ _ping_task (cl (snd r)) = Some PingTask
        /\ Forall (fun x => ~ release_effect x) t)
    /\ (ends_closed_error env = true ->
        kinds t = [lit "raw"; lit "connect"; lit "disconnect"]
        /\ cl (snd r) = released (cl (snd r))
        /\ exists t', t = t' ++ [TaskCancel; WsClose]).
Proof.
  intros Hc Hq Hr Hres Hbs Hh Hin Hp r. unfold r.
  rewrite (connect_live _ _ _ _ Hc Hr Hres Hh).
  set (s0 := joined_state s d _).
  assert (Hq0 : quiet (cl s0)) by (by apply (quiet_table (cl s))).
  destruct (frame_ack_exact s0 packet d bs _ Hq0 Hp eq_refl Hbs eq_refl
              eq_refl) as (t1 & E1 & K1 & F1).
  unfold reading_loop, except_closed, mbind, M_bind, bind. rewrite Hin.
  rewrite (receive_cons _ _ _ _ E1). cbn [receive]. unfold ret, raise.
  clear E1 Hq0. subst s0. unfold joined_state.
  destruct (ends_closed_error env).
  - unfold disconnect. mrun; try absurd_quiet Hq.
    eexists. split; [done|]. split; [trace_eq|].
    split; intros Hend; try discriminate Hend.
    split; [unfold kinds in *; events; by rewrite ?fmap_app, K1|].
    split; [done|]. eexists. rewrite !app_assoc, <- (app_assoc _ [TaskCancel] [WsClose]).
    reflexivity.
  - mrun. eexists. split; [done|]. split; [trace_eq|].
    split; intros Hend; try discriminate Hend.
    split; [unfold kinds in *; events; by rewrite ?fmap_app, K1|].
    repeat split; [by eexists|].
    repeat (apply Forall_cons; split; [by intros []|]). exact F1.
Qed.

(** X21.  A subscriber that raises ends the run without any release: when
    a [raw] subscriber raises an exception other than [ConnectionClosed]
    on the first message, [connect()] raises it with [raw] as the only
    event; [disconnect()] is not called, so the socket object and the
    keepalive task are still held and nothing was cancelled or closed. *)
Theorem subscriber_exception_ends_run (env : session_env) (s : state)
    (d : LiveDetail) (packet : str) (rest : list ws_data) (e : exn) :
  _connected (cl s) = false ->
  resolved env = inr d ->
  result d <> 0%Z ->
  handshake env = None ->
  inbound env = Text packet :: rest ->
  fst (run_calls (subscribers (cl s) (lit "raw")) (PStr packet)) = Some e ->
  e <> ConnectionClosed ->
  let r := connect unicode_lower env s in
  fst r = inl e
  /\ is_Some (ws (cl (snd r)))
  /\ _ping_task (cl (snd r)) = Some PingTask
  /\ exists t, trace (wd (snd r)) = trace (wd s) ++ t
               /\ kinds t = [lit "raw"]
               /\ Forall (fun x => ~ release_effect x) t.
Proof.
  intros Hc Hr Hres Hh Hin He Hne r. unfold r.
  change (lit "raw") with SoopChatEvent.RAW in He.
  rewrite (connect_live _ _ _ _ Hc Hr Hres Hh).
  unfold reading_loop, except_closed. rewrite Hin.
  set (s0 := joined_state s d _).
  assert (He0 : fst (run_calls (subscribers (cl s0) SoopChatEvent.RAW)
                       (PStr packet)) = Some e) by exact He.
  clear He. subst s0. unfold joined_state in *. cbn [cl] in He0.
  cbn [receive]. unfold _handle_message.
  mrun; try discriminate.
  injection He0 as ->. destruct e; try congruence; mrun.
  all: split; [done|]; split; [by eexists|]; split; [done|].
  all: eexists; (split; [trace_eq|]); (split; [by events|]).
  all: repeat (apply Forall_cons; split; [by intros []|]).
  all: apply Forall_forall; intros x Hx;
       apply run_calls_only_calls in Hx as [h ->]; by intros [].
Qed.

End ConnectExtras.

Lemma connect_fails_early_witness :
  connect (fun host => host) ack_session acked_state
  = (inl (Exception (lit "Already connected")), acked_state)
  /\ connect (fun host => host) unresolved_session
       (start bare_client counting_clock)
     = (inl (OtherError 4),
        record [resolve_request (lit "room")]
          (start bare_client counting_clock)).
Proof.
  destruct (connect_fails_early (fun host => host) ack_session acked_state)
    as [H1 _].
  destruct (connect_fails_early (fun host => host) unresolved_session
              (start bare_client counting_clock)) as [_ H2].
  split; [exact (H1 eq_refl) | exact (H2 _ eq_refl eq_refl)].
Defined.

Lemma connect_handshake_refused_witness :
  let r := connect (fun host => host) refused_session
             (start bare_client counting_clock) in
  fst r = inl (OtherError 7)
  /\ ws (cl (snd r)) = None
  /\ live_detail (cl (snd r)) = Some happy_detail.
Proof.
  intros r.
  destruct (connect_handshake_refused (fun host => host) refused_session
              (start bare_client counting_clock) happy_detail (OtherError 7)
              eq_refl eq_refl ltac:(discriminate) eq_refl) as (He & Hc & _).
  split; [exact He|]. unfold r. rewrite Hc. split; reflexivity.
Defined.

Lemma session_end_decides_release_witness :
  let clean := connect (fun host => host) ack_session
                 (start watched_client counting_clock) in
  let dropped := connect (fun host => host) dropped_session
                   (start watched_client counting_clock) in
  _connected (cl (snd clean)) = true
  /\ _ping_task (cl (snd clean)) = Some PingTask
  /\ cl (snd dropped) = released (cl (snd dropped)).
Proof.
  intros clean dropped.
  assert (Hq : quiet (cl (start watched_client counting_clock)))
    by exact quiet_watched_client.
  destruct (session_end_decides_release (fun host => host) ack_session
              (start watched_client counting_clock) happy_detail [57; 57]
              (frame "0001" []) eq_refl Hq eq_refl ltac:(discriminate)
              eq_refl eq_refl eq_refl eq_refl) as (t & _ & _ & H1 & _).
  destruct (session_end_decides_release (fun host => host) dropped_session
              (start watched_client counting_clock) happy_detail [57; 57]
              (frame "0001" []) eq_refl Hq eq_refl ltac:(discriminate)
              eq_refl eq_refl eq_refl eq_refl) as (t' & _ & _ & _ & H2).
  destruct (H1 eq_refl) as (_ & Hc & _ & Hp & _).
  destruct (H2 eq_refl) as (_ & Hrel & _).
  split; [exact Hc|]. split; [exact Hp | exact Hrel].
Defined.

Lemma subscriber_exception_ends_run_witness :
  let r := connect (fun host => host) ack_session
             (start noisy_client counting_clock) in
  fst r = inl (OtherError 5)
  /\ is_Some (ws (cl (snd r)))
  /\ _ping_task (cl (snd r)) = Some PingTask.
Proof.
  intros r.
  destruct (subscriber_exception_ends_run (fun host => host) ack_session
              (start noisy_client counting_clock) happy_detail
              (frame "0001" []) [] (OtherError 5)
              eq_refl eq_refl ltac:(discriminate) eq_refl eq_refl eq_refl
              ltac:(discriminate)) as (He & Hw & Hp & _).
  split; [exact He|]. split; [exact Hw | exact Hp].
Defined.

(** * The keepalive loop *)

Lemma ping_packet_eq : _get_ping_packet = inr ping_frame.
Proof. reflexivity. Qed.

Lemma record_nil (s : state) : record [] s = s.
Proof.
  destruct s as [c [t o k i]]. unfold record. cbn. by rewrite app_nil_r.
Qed.

(** A sleep that lasts its minute with a socket object that is open: the
    PING frame goes out and the loop continues. *)
Lemma ping_wakeup_open (later : list sleep_end) (s : state) (w : websocket) :
  ws (cl s) = Some w ->
  sock_open (wd s) = true ->
  _ping_loop (Woke :: later) s
  = _ping_loop later (record [WsSend ping_frame] s).
Proof.
  intros Hw Ho. cbn [_ping_loop].
  unfold mbind, M_bind, bind, get_self. cbn beta iota. rewrite Hw.
  unfold try, lift, ws_send, mbind, M_bind, bind, get_self, get_world.
  rewrite ping_packet_eq. unfold ret. cbn beta iota. rewrite Hw, Ho.
  reflexivity.
Qed.

(** The same with a socket object that is closed: the send raises and the
    bare [except] leaves the loop. *)
Lemma ping_wakeup_closed (later : list sleep_end) (s : state) (w : websocket) :
  ws (cl s) = Some w ->
  sock_open (wd s) = false ->
  _ping_loop (Woke :: later) s = (inr Broken, s).
Proof.
  intros Hw Ho. cbn [_ping_loop].
  unfold mbind, M_bind, bind, get_self. cbn beta iota. rewrite Hw.
  unfold try, lift, ws_send, mbind, M_bind, bind, get_self, get_world.
  rewrite ping_packet_eq. unfold ret. cbn beta iota. rewrite Hw, Ho.
  reflexivity.
Qed.

Lemma ping_wakeup_none (later : list sleep_end) (s : state) :
  ws (cl s) = None ->
  _ping_loop (Woke :: later) s = _ping_loop later s.
Proof.
  intros Hw. cbn [_ping_loop].
  unfold mbind, M_bind, bind, get_self. cbn beta iota. by rewrite Hw.
Qed.

Lemma ping_sends_then (n : nat) (rest : list sleep_end) (s : state)
    (w : websocket) :
  ws (cl s) = Some w ->
  sock_open (wd s) = true ->
  _ping_loop (wakeups n ++ rest) s
  = _ping_loop rest (record (replicate n (WsSend ping_frame)) s).
Proof.
  revert s. induction n as [|n IH]; intros s Hw Ho.
  - cbn [wakeups replicate app]. by rewrite record_nil.
  - change (wakeups (S n) ++ rest) with (Woke :: (wakeups n ++ rest)).
    rewrite (ping_wakeup_open _ s w Hw Ho), IH by done.
    by rewrite record_record.
Qed.

(** X22.  The keepalive on a live connection: while the client holds a
    socket object and the socket is open, [n] sleeps that last their minute
    send exactly [n] frames, each the PING frame (type [0000], length
    [000001], payload one form feed), and change no field of the client;
    the loop is then asleep again, and a cancellation during the next sleep
    leaves it with [CancelledError] and nothing more sent. *)
Theorem ping_loop_sends (n : nat) (s : state) (w : websocket) :
  ws (cl s) = Some w ->
  sock_open (wd s) = true ->
  _ping_loop (wakeups n) s
  = (inr StillSleeping, record (replicate n (WsSend ping_frame)) s)
  /\ (forall later,
        _ping_loop (wakeups n ++ Cancelled :: later) s
        = (inl CancelledError, record (replicate n (WsSend ping_frame)) s))
  /\ ping_frame = [ESC; TAB] ++ lit "000000000100" ++ [FF].
Proof.
  intros Hw Ho. split; [|split; [|reflexivity]].
  - rewrite <- (app_nil_r (wakeups n)).
    by rewrite (ping_sends_then n [] s w Hw Ho).
  - intros later. by rewrite (ping_sends_then n _ s w Hw Ho).
Qed.

(** X23.  The keepalive without a usable socket: with a socket object whose
    connection is closed, the first wake-up leaves the loop through the
    bare [except], sending nothing and raising nothing; with no socket
    object the loop sleeps on, wake-up after wake-up, sending nothing. In
    both cases the state is untouched. *)
Theorem ping_loop_idle (n : nat) (s : state) :
  (forall w, ws (cl s) = Some w -> sock_open (wd s) = false ->
     _ping_loop (wakeups (S n)) s = (inr Broken, s))
  /\ (ws (cl s) = None -> _ping_loop (wakeups n) s = (inr StillSleeping, s)).
Proof.
  split.
  - intros w Hw Ho. exact (ping_wakeup_closed (wakeups n) s w Hw Ho).
  - intros Hw. induction n as [|n IH]; [done|].
    change (wakeups (S n)) with (Woke :: wakeups n).
    by rewrite (ping_wakeup_none _ s Hw).
Qed.

(** X24.  The only exception that leaves [_ping_loop] is the
    [CancelledError] of a sleep during which the task was cancelled, every
    sleep before it having lasted its minute: whatever the send raises is
    caught by the bare [except] and ends the loop quietly, so a run without
    cancellation does not raise.  In every run the loop sends PING frames
    only, at most one for each sleep that lasted its minute, produces no
    other effect and changes no field of the client. *)
Theorem ping_loop_raises_only_cancelled (sleeps : list sleep_end)
    (s : state) :
  exists k : nat,
    snd (_ping_loop sleeps s) = record (replicate k (WsSend ping_frame)) s
    /\ (k <= length (filter (fun x => x = Woke) sleeps))%nat
    /\ (forall e, fst (_ping_loop sleeps s) = inl e ->
          e = CancelledError
          /\ exists n later,
               sleeps = wakeups n ++ Cancelled :: later /\ (k <= n)%nat)
    /\ (Cancelled ∉ sleeps -> exists e, fst (_ping_loop sleeps s) = inr e).
Proof.
  revert s. induction sleeps as [|[] later IH]; intros s.
  - exists 0%nat. cbn [_ping_loop replicate]. rewrite record_nil.
    split; [done|]. split; [done|]. split; [intros e [=]|by eexists].
  - destruct (ws (cl s)) as [w|] eqn:Hw; [destruct (sock_open (wd s)) eqn:Ho|].
    + destruct (IH (record [WsSend ping_frame] s)) as (k & E & Hk & Hr & Hn).
      exists (S k). rewrite (ping_wakeup_open later s w Hw Ho), E.
      rewrite record_record. split; [done|].
      split; [rewrite filter_cons_True by done; cbn [length]; lia|]. split.
      * intros e He. destruct (Hr e He) as (-> & n & rest & -> & Hle).
        split; [done|]. exists (S n), rest. split; [done|lia].
      * intros Hnot. apply Hn. intros Hin. apply Hnot. by right.
    + exists 0%nat. rewrite (ping_wakeup_closed later s w Hw Ho).
      cbn [replicate fst snd]. rewrite record_nil.
      split; [done|]. split; [lia|]. split; [intros e [=]|by eexists].
    + destruct (IH s) as (k & E & Hk & Hr & Hn).
      exists k. rewrite (ping_wakeup_none later s Hw), E. split; [done|].
      split; [rewrite filter_cons_True by done; cbn [length]; lia|]. split.
      * intros e He. destruct (Hr e He) as (-> & n & rest & -> & Hle).
        split; [done|]. exists (S n), rest. split; [done|lia].
      * intros Hnot. apply Hn. intros Hin. apply Hnot. by right.
  - exists 0%nat. cbn [_ping_loop replicate]. unfold raise. cbn [fst snd].
    rewrite record_nil. split; [done|]. split; [lia|]. split.
    + intros e [= <-]. split; [done|]. by exists 0%nat, later.
    + intros Hnot. exfalso. apply Hnot. by left.
Qed.

Lemma ping_loop_sends_witness :
  _ping_loop [Woke; Woke] talking_state
  = (inr StillSleeping,
     record [WsSend ping_frame; WsSend ping_frame] talking_state)
  /\ _ping_loop [Woke; Cancelled; Woke] talking_state
     = (inl CancelledError, record [WsSend ping_frame] talking_state).
Proof.
  split.
  - destruct (ping_loop_sends 2%nat talking_state
                {| ws_url := lit "wss://chat-x:5001/Websocket/room" |})
      as [H _]; [reflexivity | reflexivity | exact H].
  - destruct (ping_loop_sends 1%nat talking_state
                {| ws_url := lit "wss://chat-x:5001/Websocket/room" |})
      as (_ & H & _); [reflexivity | reflexivity | exact (H [Woke])].
Defined.

Lemma ping_loop_idle_witness :
  _ping_loop [Woke; Woke; Woke] (snd (disconnect acked_state))
  = (inr StillSleeping, snd (disconnect acked_state))
  /\ _ping_loop [Woke] (snd (ws_close acked_state))
     = (inr Broken, snd (ws_close acked_state)).
Proof.
  split.
  - destruct (ping_loop_idle 3%nat (snd (disconnect acked_state))) as [_ H].
    exact (H eq_refl).
  - destruct (ping_loop_idle 0%nat (snd (ws_close acked_state))) as [H _].
    exact (H {| ws_url := lit "wss://chat-x:5001/Websocket/room" |}
             eq_refl eq_refl).
Defined.

Lemma ping_loop_raises_only_cancelled_witness :
  (exists e, fst (_ping_loop [Woke; Woke] acked_state) = inr e)
  /\ exists n later, [Woke; Cancelled; Woke] = wakeups n ++ Cancelled :: later.
Proof.
  split.
  - destruct (ping_loop_raises_only_cancelled [Woke; Woke] acked_state)
      as (k & _ & _ & _ & H).
    apply H. intros Hin. by repeat (apply elem_of_cons in Hin as [Hin|Hin];
      [discriminate Hin|]); apply elem_of_nil in Hin.
  - destruct (ping_loop_raises_only_cancelled [Woke; Cancelled; Woke]
                talking_state) as (k & _ & _ & H & _).
    destruct (H CancelledError eq_refl) as (_ & n & later & E & _).
    by exists n, later.
Defined.
